(** * A model of [src/media_api.py]: the Dolby.io media client

    The client is a thin layer over HTTP: every method of [MediaAPI] sends
    one or more requests, and [transcode] and [diagnose] then poll a status
    endpoint in a [while True] loop.  The model below keeps the effects
    explicit: a world that records what was sent, printed and slept, a file
    system, and a remote service that answers the n-th request. *)

From Stdlib Require Import String Ascii List ZArith Lia Bool Arith.
From Stdlib Require Import Floats.
From Stdlib Require Import DecimalString.
From Equations Require Import Equations.
Import ListNotations.

Set Warnings "-register-all".

Local Open Scope string_scope.
Local Open Scope list_scope.
Local Open Scope Z_scope.

(** ** Values *)

Definition bytes := list Byte.byte.

(** What [response.json()] can return: the Python image of a JSON text.
    A [dict] keeps its insertion order, so it is an association list. *)
Inductive json : Type :=
| JNull
| JBool (b : bool)
| JInt (n : Z)
| JFloat (f : float)
| JStr (s : string)
| JArr (items : list json)
| JObj (fields : list (string * json)).

Fixpoint lookup (key : string) (fields : list (string * json)) : option json :=
  match fields with
  | [] => None
  | (k, v) :: rest => if String.eqb k key then Some v else lookup key rest
  end.

(** Python truth value of an object, as [if] and [and] test it. *)
Definition truthy (v : json) : bool :=
  match v with
  | JNull => false
  | JBool b => b
  | JInt n => negb (n =? 0)
  | JFloat f => negb (PrimFloat.eqb f PrimFloat.zero)
  | JStr s => negb (String.eqb s "")
  | JArr items => match items with [] => false | _ => true end
  | JObj fields => match fields with [] => false | _ => true end
  end.

(** [v == s] for a string literal [s]: only a [str] with the same
    characters is equal to it. *)
Definition eq_str (v : json) (s : string) : bool :=
  match v with
  | JStr t => String.eqb t s
  | _ => false
  end.

(** [x and y]: [x] when [x] is falsy, [y] otherwise. *)
Definition py_and (x y : json) : json := if truthy x then y else x.

(** ** Requests and responses *)

Inductive Method := GET | POST | PUT.

Inductive Payload :=
| NoPayload
| JsonPayload (j : json)       (* json=... *)
| DataPayload (data : bytes).  (* data=<open file> *)

Record Request := mkRequest {
  method : Method;
  url : string;
  params : list (string * json);
  headers : list (string * string);   (* the headers= argument of the call *)
  payload : Payload;
  stream : bool
}.

(** The views of a [requests.Response] the client looks at. *)
Record Response := mkResponse {
  status_code : Z;
  reason : string;
  response_url : string;      (* response.url *)
  text : string;              (* response.text *)
  parsed : option json;       (* response.json(), None when it cannot be decoded *)
  raw : bytes                 (* response.raw, content decoded *)
}.

Inductive exn :=
| HTTPError (msg : string) (response : Response)  (* requests.exceptions.HTTPError *)
| Exception (arg : string)                        (* raise Exception(response.text) *)
| KeyError (key : string)
| TypeError
| JSONDecodeError
| ConnectionError
| MissingSchema
| InvalidSchema
| InvalidURL
| OSError (path : string).

(** The argument an exception was built with, [e.args[0]], for the
    exceptions whose argument the model follows. *)
Definition exn_arg (e : exn) : option string :=
  match e with
  | HTTPError msg _ => Some msg
  | Exception arg => Some arg
  | KeyError key => Some key
  | _ => None
  end.

(** The body text an error holds: the argument of
    [Exception(response.text)], or the text of the response that an
    [HTTPError] carries as [e.response]. *)
Definition error_text (e : exn) : option string :=
  match e with
  | Exception arg => Some arg
  | HTTPError _ response => Some (text response)
  | _ => None
  end.

(** [obj[key]] for a string key. *)
Definition subscript (obj : json) (key : string) : json + exn :=
  match obj with
  | JObj fields =>
      match lookup key fields with
      | Some v => inl v
      | None => inr (KeyError key)
      end
  | _ => inr TypeError
  end.

(** ** The world *)

Inductive pyarg :=
| Str (s : string)
| Obj (j : json)
| Format (template : string) (args : list json).  (* template.format(args) *)

Inductive Event :=
| Http (q : Request)
| Print (args : list pyarg)
| Sleep (seconds : Z).

Record World := mkWorld {
  trace : list Event;                 (* oldest first *)
  sent : nat;                         (* requests sent so far *)
  fs : string -> option bytes;
  writable : string -> bool
}.

(** The requests of a trace, in order. *)
Fixpoint requests (evs : list Event) : list Request :=
  match evs with
  | [] => []
  | Http q :: rest => q :: requests rest
  | _ :: rest => requests rest
  end.

Definition log (e : Event) (w : World) : World :=
  mkWorld (trace w ++ [e]) (sent w) (fs w) (writable w).

Definition after_request (q : Event) (w : World) : World :=
  mkWorld (trace w ++ [q]) (S (sent w)) (fs w) (writable w).

Definition store (path : string) (content : bytes) (w : World) : World :=
  mkWorld (trace w) (sent w)
          (fun p => if String.eqb p path then Some content else fs w p)
          (writable w).

(** ** Computations: state, exceptions, and a loop that may still run *)

Inductive outcome (A : Type) :=
| Return (a : A)
| Raise (e : exn)
| Running.
Arguments Return {A} a.
Arguments Raise {A} e.
Arguments Running {A}.

Definition M (A : Type) := World -> outcome A * World.

Definition ret {A} (a : A) : M A := fun w => (Return a, w).
Definition raise {A} (e : exn) : M A := fun w => (Raise e, w).

Definition bind {A B} (m : M A) (k : A -> M B) : M B :=
  fun w =>
    match m w with
    | (Return a, w') => k a w'
    | (Raise e, w') => (Raise e, w')
    | (Running, w') => (Running, w')
    end.

Notation "x <- m ;; k" := (bind m (fun x => k))
  (at level 61, m at next level, right associativity).
Notation "m ;; k" := (bind m (fun _ => k))
  (at level 61, right associativity).

(** [try: body / except <class>: handler]. *)
Definition try_except {A} (body : M A) (catches : exn -> bool) (handler : M A) : M A :=
  fun w =>
    match body w with
    | (Raise e, w') => if catches e then handler w' else (Raise e, w')
    | r => r
    end.

Definition is_HTTPError (e : exn) : bool :=
  match e with HTTPError _ _ => true | _ => false end.

Definition lift {A} (r : A + exn) : M A :=
  match r with inl a => ret a | inr e => raise e end.

(** [while True: body], where the body either returns from the enclosing
    function ([Some]) or falls through to the next round ([None]).  The
    fuel bounds the rounds the model follows; [Running] means the loop has
    not left by then. *)
Fixpoint while_true {A} (fuel : nat) (body : M (option A)) : M A :=
  match fuel with
  | O => fun w => (Running, w)
  | S fuel' =>
      r <- body ;;
      match r with
      | Some a => ret a
      | None => while_true fuel' body
      end
  end.

Definition print (args : list pyarg) : M unit :=
  fun w => (Return tt, log (Print args) w).

Definition sleep (seconds : Z) : M unit :=
  fun w => (Return tt, log (Sleep seconds) w).

(** ** Streams and files *)

(** [fsrc.read(amt)] on what is left of a stream: the bytes read and the
    rest.  A negative [amt] reads to the end. *)
Definition read (amt : Z) (fsrc : bytes) : bytes * bytes :=
  if amt <? 0 then (fsrc, [])
  else (firstn (Z.to_nat amt) fsrc, skipn (Z.to_nat amt) fsrc).

Definition inspect {A} (a : A) : {b : A | a = b} := exist _ a eq_refl.

(** The loop of [shutil.copyfileobj]:
    [while buf := fsrc_read(length): fdst_write(buf)],
    with [len] for [length] and [fdst] the content written so far. *)
Equations copy_loop (len : Z) (fsrc fdst : bytes) : bytes
  by wf (List.length fsrc) lt :=
copy_loop len fsrc fdst with inspect (read len fsrc) := {
  | exist _ ([], _) _ => fdst
  | exist _ (b :: buf, rest) e => copy_loop len rest (fdst ++ b :: buf) }.
Next Obligation.
  revert e. unfold read. destruct (len <? 0).
  - intros H. inversion H. subst. simpl. lia.
  - intros H. inversion H as [[H1 H2]]. clear H.
    destruct (Z.to_nat len) as [|n]; [discriminate|].
    destruct fsrc as [|x xs]; [discriminate|].
    simpl. pose proof (length_skipn n xs). lia.
Qed.

Definition str_of_Z (n : Z) : string := NilZero.string_of_int (Z.to_int n).

Definition newline : string := String "010"%char EmptyString.

(** ** Sample services

    Replies and services for the concrete runs at the end of the file.
    The n-th request of a run gets the n-th reply. *)

Definition dq : string := String "034"%char EmptyString.

(** The text of a JSON object with one string field. *)
Definition field_text (key value : string) : string :=
  ("{" ++ dq ++ key ++ dq ++ ":" ++ dq ++ value ++ dq ++ "}")%string.

Definition json_reply (code : Z) (phrase at_url body_text : string) (j : json)
  : Response :=
  mkResponse code phrase at_url body_text (Some j) (list_byte_of_string body_text).

Definition reply_job : Response :=
  json_reply 200 "OK" "https://api.dolby.com/media/transcode"
             (field_text "job_id" "job-1") (JObj [("job_id", JStr "job-1")]).

Definition reply_running : Response :=
  json_reply 200 "OK" "https://api.dolby.com/media/transcode?job_id=job-1"
             (field_text "status" "Running") (JObj [("status", JStr "Running")]).

Definition reply_failed : Response :=
  json_reply 200 "OK" "https://api.dolby.com/media/transcode?job_id=job-1"
             (field_text "status" "Failed") (JObj [("status", JStr "Failed")]).

(** A success snapshot that names a place of its own for the result. *)
Definition snapshot_done : json :=
  JObj [("status", JStr "Success");
        ("result", JObj [("url", JStr "https://cdn.example/result.mp4")])].

Definition reply_done : Response :=
  json_reply 200 "OK" "https://api.dolby.com/media/transcode?job_id=job-1"
             "{...}" snapshot_done.

Definition sample_media_info : json :=
  JObj [("container", JObj [("kind", JStr "mp4")]);
        ("audio", JObj [("channels", JInt 2)])].

Definition reply_diagnosed : Response :=
  json_reply 200 "OK" "https://api.dolby.com/media/diagnose?job_id=job-1"
             "{...}"
             (JObj [("status", JStr "Success");
                    ("result", JObj [("media_info", sample_media_info)])]).

Definition reply_invalid_url : Response :=
  json_reply 422 "Unprocessable Entity" "https://api.dolby.com/media/diagnose"
             (field_text "error" "invalid url")
             (JObj [("error", JStr "invalid url")]).

(** A redirection without a target, which [requests] hands back as it
    is. *)
Definition reply_redirect : Response :=
  json_reply 300 "Multiple Choices"
             "https://api.dolby.com/media/transcode?job_id=job-1"
             (field_text "status" "Running") (JObj [("status", JStr "Running")]).

Definition reply_no_status : Response :=
  json_reply 200 "OK" "https://api.dolby.com/media/transcode?job_id=job-1"
             (field_text "state" "Running") (JObj [("state", JStr "Running")]).

Definition reply_no_job_id : Response :=
  json_reply 200 "OK" "https://api.dolby.com/media/transcode"
             (field_text "id" "job-1") (JObj [("id", JStr "job-1")]).

Definition sample_media : bytes :=
  [Byte.x00; Byte.x01; Byte.x02; Byte.x7f; Byte.x80; Byte.xfe; Byte.xff].

Definition reply_media : Response :=
  mkResponse 200 "OK" "https://api.dolby.com/media/output?url=dlb%3A%2F%2Fout.mp4"
             "" None sample_media.

Definition reply_presigned : Response :=
  json_reply 200 "OK" "https://api.dolby.com/media/input"
             (field_text "url" "https://upload.example/presigned")
             (JObj [("url", JStr "https://upload.example/presigned")]).

Definition reply_uploaded : Response :=
  mkResponse 200 "OK" "https://upload.example/presigned" "" None [].

Definition script (replies : list Response) (otherwise : Response)
  : nat -> Request -> option Response :=
  fun n _ => Some (nth n replies otherwise).

(** A job that never leaves "Running". *)
Definition service_running : nat -> Request -> option Response :=
  script [reply_job] reply_running.

(** A job that has failed for good and says so. *)
Definition service_failed : nat -> Request -> option Response :=
  script [reply_job; reply_running] reply_failed.

(** Two polls see "Running", the third sees "Success". *)
Definition service_diagnose : nat -> Request -> option Response :=
  script [reply_job; reply_running; reply_running; reply_diagnosed] reply_diagnosed.

Definition service_transcode : nat -> Request -> option Response :=
  script [reply_job; reply_running; reply_running; reply_done; reply_media]
         reply_media.

Definition service_rejecting : nat -> Request -> option Response :=
  script [] reply_invalid_url.

(** The job is created, then a status poll fails. *)
Definition service_breaking : nat -> Request -> option Response :=
  script [reply_job; reply_running] reply_invalid_url.

Definition service_redirecting : nat -> Request -> option Response :=
  script [reply_job; reply_redirect] reply_running.

Definition service_no_status : nat -> Request -> option Response :=
  script [reply_job; reply_running] reply_no_status.

Definition service_no_job_id : nat -> Request -> option Response :=
  script [] reply_no_job_id.

Definition service_upload : nat -> Request -> option Response :=
  script [reply_presigned] reply_uploaded.

(** What the polls of [service_failed] see. *)
Definition snapshots_failed (i : nat) : json :=
  match i with
  | O => JObj [("status", JStr "Running")]
  | S _ => JObj [("status", JStr "Failed")]
  end.

Definition service_media : nat -> Request -> option Response :=
  script [] reply_media.

Definition service_redirect : nat -> Request -> option Response :=
  script [] reply_redirect.

(** A submission answered with a redirection that names no target
    and has a job in its body. *)
Definition reply_redirect_job : Response :=
  json_reply 300 "Multiple Choices" "https://api.dolby.com/media/transcode"
             (field_text "job_id" "job-1") (JObj [("job_id", JStr "job-1")]).

Definition service_redirected_submission : nat -> Request -> option Response :=
  script [reply_redirect_job] reply_running.

(** A check of URLs for the runs below: a string that starts with
    http:// or https:// passes, any other string has a scheme that
    cannot be sent to or none, and a value that is not a string has
    none. *)
Definition sample_url_fault (url : json) : option exn :=
  match url with
  | JStr u =>
      if String.prefix "http://" u || String.prefix "https://" u then None
      else if existsb (Ascii.eqb ":"%char) (list_ascii_of_string u)
           then Some InvalidSchema
           else Some MissingSchema
  | _ => Some MissingSchema
  end.

(** The service names a presigned URL without a scheme. *)
Definition reply_presigned_bare : Response :=
  json_reply 200 "OK" "https://api.dolby.com/media/input"
             (field_text "url" "upload.example/presigned")
             (JObj [("url", JStr "upload.example/presigned")]).

Definition service_upload_bare : nat -> Request -> option Response :=
  script [reply_presigned_bare] reply_uploaded.

(** The presigned URL is handed out, then the upload is refused. *)
Definition service_upload_refused : nat -> Request -> option Response :=
  script [reply_presigned] reply_invalid_url.

(** The job succeeds, then the download is refused. *)
Definition service_download_refused : nat -> Request -> option Response :=
  script [reply_job; reply_running; reply_done] reply_invalid_url.

(** The job of [diagnose] succeeds with a result that has no
    "media_info". *)
Definition service_no_media_info : nat -> Request -> option Response :=
  script [reply_job; reply_running] reply_done.

(** The connection is lost after the first status query. *)
Definition service_dropping : nat -> Request -> option Response :=
  fun n _ =>
    if (n <? 2)%nat then Some (nth n [reply_job; reply_running] reply_running)
    else None.

(** A fresh run: nothing sent or printed, one local file, every path
    writable. *)
Definition fresh : World :=
  mkWorld [] 0
          (fun p => if String.eqb p "videos/input.mp4" then Some sample_media else None)
          (fun _ => true).

(** ** The client *)

Section MediaAPI.

(** [os.environ["DOLBYIO_API_KEY"]], read once when the class is built. *)
Variable DOLBYIO_API_KEY : string.

(** [shutil.COPY_BUFSIZE], which depends on the platform. *)
Variable COPY_BUFSIZE : Z.

(** The service: its answer to the n-th request of the run, [None] when
    the transport fails. *)
Variable remote : nat -> Request -> option Response.

(** The check the library makes of the URL of a call before it sends
    anything: the exception it raises for this value ([MissingSchema],
    [InvalidSchema] or [InvalidURL]), [None] for a URL it accepts.  The
    model applies it where the URL comes from the service, in the
    upload; the other calls name the endpoints of the service. *)
Variable url_fault : json -> option exn.

Definition REQUEST_HEADERS : list (string * string) :=
  [("x-api-key", DOLBYIO_API_KEY);
   ("Content-Type", "application/json");
   ("Accept", "application/json")].

(** One call of [requests.get], [post] or [put]: the event records the
    arguments of the call, and the reply is the response the call
    returns, after any redirection the library has followed by itself. *)
Definition send (q : Request) : M Response :=
  fun w =>
    let w' := after_request (Http q) w in
    match remote (sent w) q with
    | Some r => (Return r, w')
    | None => (Raise ConnectionError, w')
    end.

Definition requests_post (url : string) (body : json)
           (hdrs : list (string * string)) : M Response :=
  send (mkRequest POST url [] hdrs (JsonPayload body) false).

Definition requests_get (url : string) (args : list (string * json))
           (hdrs : list (string * string)) (streamed : bool) : M Response :=
  send (mkRequest GET url args hdrs NoPayload streamed).

(** [requests.put(url, data=...)]: no [headers=] argument.  A URL the
    library refuses raises before anything is sent.  The text of a
    value that is not a string is no http(s) URL: should [url_fault]
    let one through, it is given [MissingSchema]. *)
Definition requests_put (url : json) (data : bytes) : M Response :=
  match url_fault url with
  | Some e => raise e
  | None =>
      match url with
      | JStr u => send (mkRequest PUT u [] [] (DataPayload data) false)
      | _ => raise MissingSchema
      end
  end.

(** The message [Response.raise_for_status] builds: one for 4xx, one
    for 5xx, none otherwise. *)
Definition http_error_msg (r : Response) : option string :=
  if (400 <=? status_code r) && (status_code r <? 500) then
    Some (str_of_Z (status_code r) ++ " Client Error: " ++ reason r
          ++ " for url: " ++ response_url r)%string
  else if (500 <=? status_code r) && (status_code r <? 600) then
    Some (str_of_Z (status_code r) ++ " Server Error: " ++ reason r
          ++ " for url: " ++ response_url r)%string
  else None.

Definition raise_for_status (r : Response) : M unit :=
  match http_error_msg r with
  | Some msg => raise (HTTPError msg r)
  | None => ret tt
  end.

Definition response_json (r : Response) : M json :=
  match parsed r with
  | Some j => ret j
  | None => raise JSONDecodeError
  end.

(** [open(path, "rb")], read whole by the upload. *)
Definition open_rb (path : string) : M bytes :=
  fun w =>
    match fs w path with
    | Some content => (Return content, w)
    | None => (Raise (OSError path), w)
    end.

(** [open(path, "wb")]: the file is created or emptied. *)
Definition open_wb (path : string) : M unit :=
  fun w =>
    if writable w path then (Return tt, store path [] w)
    else (Raise (OSError path), w).

(** [shutil.copyfileobj(fsrc, fdst, length=0)] into the file open at
    [path]: [if not length: length = COPY_BUFSIZE], then the loop. *)
Definition copyfileobj (fsrc : bytes) (path : string) (len : Z) : M unit :=
  fun w =>
    let len := if len =? 0 then COPY_BUFSIZE else len in
    let fdst := match fs w path with Some c => c | None => [] end in
    (Return tt, store path (copy_loop len fsrc fdst) w).

Definition prepare_media (file_path dolby_input_url : string) : M unit :=
  let url := "https://api.dolby.com/media/input" in
  let body := JObj [("url", JStr dolby_input_url)] in
  response <- requests_post url body REQUEST_HEADERS ;;
  raise_for_status response ;;
  data <- response_json response ;;
  presigned_url <- lift (subscript data "url") ;;
  print [Format "Uploading {0} to {1}" [JStr file_path; presigned_url]] ;;
  input_file <- open_rb file_path ;;
  requests_put presigned_url input_file ;;
  ret tt.

(** In the source the [requests.get] call is inside the [try] as well;
    [send] raises no [HTTPError], so only [raise_for_status] can reach
    the [except] clause. *)
Definition check_job_status (job_id : json) (endpoint_url : string) : M json :=
  let url := endpoint_url in
  let args := [("job_id", job_id)] in
  response <- requests_get url args REQUEST_HEADERS false ;;
  try_except (raise_for_status response) is_HTTPError
             (raise (Exception (text response))) ;;
  response_json response.

Definition download_media (output_path transcoded_media_url : string) : M unit :=
  let url := "https://api.dolby.com/media/output" in
  let args := [("url", JStr transcoded_media_url)] in
  response <- requests_get url args REQUEST_HEADERS true ;;
  raise_for_status response ;;
  (* response.raw.decode_content = True: [raw] is the decoded body *)
  print [Format (newline ++ "Downloading from {0} into {1}")%string
                [JStr (response_url response); JStr output_path]] ;;
  open_wb output_path ;;
  copyfileobj (raw response) output_path 0.

(** [job_status and job_status == "Success"], as the [if] tests it. *)
Definition succeeded (job_status : json) : bool :=
  truthy (py_and job_status (JBool (eq_str job_status "Success"))).

Definition transcode (fuel : nat) (transcoded_media_url output_path : string)
           (request_body : json) : M unit :=
  let url := "https://api.dolby.com/media/transcode" in
  response <- requests_post url request_body REQUEST_HEADERS ;;
  try_except (raise_for_status response) is_HTTPError
             (raise (Exception (text response))) ;;
  body <- response_json response ;;
  job_id <- lift (subscript body "job_id") ;;
  print [Str (newline ++ "Transcoding your media file...")%string] ;;
  print [Str "Job ID: "; Obj job_id] ;;
  while_true fuel
    (job_response <- check_job_status job_id url ;;
     job_status <- lift (subscript job_response "status") ;;
     if succeeded job_status then
       download_media output_path transcoded_media_url ;;
       ret (Some tt)
     else
       print [Obj job_response] ;;
       sleep 10 ;;
       ret None).

Definition diagnose (fuel : nat) (dolby_input_url : string) : M json :=
  let url := "https://api.dolby.com/media/diagnose" in
  let body := JObj [("input", JStr dolby_input_url)] in
  response <- requests_post url body REQUEST_HEADERS ;;
  raise_for_status response ;;
  data <- response_json response ;;
  job_id <- lift (subscript data "job_id") ;;
  print [Str (newline ++ "Diagnosing your media file...")%string] ;;
  print [Str "Job ID: "; Obj job_id] ;;
  while_true fuel
    (job_response <- check_job_status job_id url ;;
     job_status <- lift (subscript job_response "status") ;;
     if succeeded job_status then
       result <- lift (subscript job_response "result") ;;
       media_info <- lift (subscript result "media_info") ;;
       print [Str (newline ++ "Media Info: ")%string; Obj media_info] ;;
       result' <- lift (subscript job_response "result") ;;
       media_info' <- lift (subscript result' "media_info") ;;
       ret (Some media_info')
     else
       print [Obj job_response] ;;
       sleep 10 ;;
       ret None).

(** ** Vocabulary of the statements *)

(** The requests the methods build. *)
Definition input_registration (dolby_input_url : string) : Request :=
  mkRequest POST "https://api.dolby.com/media/input" [] REQUEST_HEADERS
            (JsonPayload (JObj [("url", JStr dolby_input_url)])) false.

Definition presigned_upload (presigned_url : string) (data : bytes) : Request :=
  mkRequest PUT presigned_url [] [] (DataPayload data) false.

Definition status_query (job_id : json) (endpoint_url : string) : Request :=
  mkRequest GET endpoint_url [("job_id", job_id)] REQUEST_HEADERS NoPayload false.

Definition download_request (transcoded_media_url : string) : Request :=
  mkRequest GET "https://api.dolby.com/media/output"
            [("url", JStr transcoded_media_url)] REQUEST_HEADERS NoPayload true.

Definition transcode_url : string := "https://api.dolby.com/media/transcode".
Definition diagnose_url : string := "https://api.dolby.com/media/diagnose".

Definition transcode_submission (request_body : json) : Request :=
  mkRequest POST transcode_url [] REQUEST_HEADERS (JsonPayload request_body) false.

Definition diagnose_submission (dolby_input_url : string) : Request :=
  mkRequest POST diagnose_url [] REQUEST_HEADERS
            (JsonPayload (JObj [("input", JStr dolby_input_url)])) false.

Definition is_2xx (r : Response) : bool :=
  (200 <=? status_code r) && (status_code r <? 300).

(** The statuses [raise_for_status] raises for. *)
Definition is_4xx_5xx (r : Response) : bool :=
  (400 <=? status_code r) && (status_code r <? 600).

(** A reply that carries a snapshot whose status is not "Success". *)
Definition pending_reply (reply : option Response) (snap : json) : Prop :=
  exists r st,
    reply = Some r /\ http_error_msg r = None /\ parsed r = Some snap /\
    subscript snap "status" = inl st /\ st <> JStr "Success".

(** A reply that carries a snapshot whose status is "Success". *)
Definition success_reply (reply : option Response) (snap : json) : Prop :=
  exists r,
    reply = Some r /\ http_error_msg r = None /\ parsed r = Some snap /\
    subscript snap "status" = inl (JStr "Success").

(** The requests from the n-th on are answered with the snapshots
    [snaps], none of them a success. *)
Fixpoint pending_from (n : nat) (q : Request) (snaps : list json) : Prop :=
  match snaps with
  | [] => True
  | snap :: rest => pending_reply (remote n q) snap /\ pending_from (S n) q rest
  end.

(** What one round of the loop leaves in the trace when the job is not
    done, and what several do. *)
Definition round_events (q : Request) (snap : json) : list Event :=
  [Http q; Print [Obj snap]; Sleep 10].

Definition rounds (q : Request) (snaps : list json) : list Event :=
  flat_map (round_events q) snaps.

Definition after_round (q : Request) (w : World) (snap : json) : World :=
  log (Sleep 10) (log (Print [Obj snap]) (after_request (Http q) w)).

Definition after_rounds (q : Request) (snaps : list json) (w : World) : World :=
  fold_left (after_round q) snaps w.

(** The world once a job is created: the submission and the two lines
    printed. *)
Definition started (submission : Request) (banner : string) (job_id : json)
           (w : World) : World :=
  log (Print [Str "Job ID: "; Obj job_id])
      (log (Print [Str (newline ++ banner)%string])
           (after_request (Http submission) w)).

Definition start_events (submission : Request) (banner : string) (job_id : json)
  : list Event :=
  [Http submission; Print [Str (newline ++ banner)%string];
   Print [Str "Job ID: "; Obj job_id]].

(** A reply to a submission from which a job identifier is read. *)
Definition accepted (reply : option Response) (job_id : json) : Prop :=
  exists r body,
    reply = Some r /\ http_error_msg r = None /\ parsed r = Some body /\
    subscript body "job_id" = inl job_id.

(** The events of a download that goes through. *)
Definition download_events (transcoded_media_url output_path : string)
           (r : Response) : list Event :=
  [Http (download_request transcoded_media_url);
   Print [Format (newline ++ "Downloading from {0} into {1}")%string
                 [JStr (response_url r); JStr output_path]]].

(** What a status poll makes of a reply, as the head of the loop reads
    it. *)
Inductive Observation :=
| Pending (snap : json)
| Succeeded (snap : json)
| Failed (e : exn).

Definition observe (reply : option Response) : Observation :=
  match reply with
  | None => Failed ConnectionError
  | Some r =>
      match http_error_msg r with
      | Some _ => Failed (Exception (text r))
      | None =>
          match parsed r with
          | None => Failed JSONDecodeError
          | Some snap =>
              match subscript snap "status" with
              | inr e => Failed e
              | inl st => if eq_str st "Success" then Succeeded snap else Pending snap
              end
          end
      end
  end.

(** The body both loops share, up to what they do on success. *)
Definition poll_round {A} (job_id : json) (endpoint_url : string)
           (on_success : json -> M A) : M (option A) :=
  job_response <- check_job_status job_id endpoint_url ;;
  job_status <- lift (subscript job_response "status") ;;
  if succeeded job_status then
    a <- on_success job_response ;;
    ret (Some a)
  else
    print [Obj job_response] ;;
    sleep 10 ;;
    ret None.

(** What [diagnose] does with a successful snapshot. *)
Definition report_media_info (job_response : json) : M json :=
  result <- lift (subscript job_response "result") ;;
  media_info <- lift (subscript result "media_info") ;;
  print [Str (newline ++ "Media Info: ")%string; Obj media_info] ;;
  result' <- lift (subscript job_response "result") ;;
  media_info' <- lift (subscript result' "media_info") ;;
  ret media_info'.

(** A computation [emits P] when every event it adds to the trace
    satisfies [P], however it ends. *)
Definition emits (P : Event -> Prop) {A} (m : M A) : Prop :=
  forall w, exists evs, trace (snd (m w)) = trace w ++ evs /\ Forall P evs.

(** The request of this event, if it is one, has the three headers. *)
Definition carries_headers (ev : Event) : Prop :=
  match ev with
  | Http q => headers q = REQUEST_HEADERS
  | _ => True
  end.

(** The same, but for the upload to a presigned URL, which is sent
    with no header of the client. *)
Definition carries_headers_or_uploads (ev : Event) : Prop :=
  match ev with
  | Http q =>
      headers q = REQUEST_HEADERS \/
      exists u data, q = presigned_upload u data
  | _ => True
  end.

(** The request of this event, if it is one, is a status query for
    [job_id] or one of [others]. *)
Definition polls_job (job_id : json) (endpoint_url : string)
           (others : list Request) (ev : Event) : Prop :=
  match ev with
  | Http q => q = status_query job_id endpoint_url \/ In q others
  | _ => True
  end.

(** A computation [respects R] when the world it leaves is related by
    [R] to the one it started from, however it ends. *)
Definition respects (R : World -> World -> Prop) {A} (m : M A) : Prop :=
  forall w, R w (snd (m w)).

(** Every file but those of [touched] has the content it had, and the
    same paths can be opened for writing. *)
Definition files_kept (touched : list string) (w w' : World) : Prop :=
  (forall p, ~ In p touched -> fs w' p = fs w p) /\
  (forall p, writable w' p = writable w p).

(** ** Values and the loop test *)

Lemma eq_str_true (v : json) (s : string) : eq_str v s = true <-> v = JStr s.
Proof.
  destruct v; simpl; split; try discriminate.
  - intros H. apply String.eqb_eq in H. now subst.
  - intros H. inversion H. apply String.eqb_refl.
Qed.

(** The test [job_status and job_status == "Success"] holds exactly for
    the string "Success": a falsy status is never equal to it. *)
Lemma succeeded_eq (job_status : json) :
  succeeded job_status = eq_str job_status "Success".
Proof.
  unfold succeeded, py_and.
  destruct (truthy job_status) eqn:T; [reflexivity|].
  destruct job_status; simpl in *; try reflexivity; try (now rewrite T).
  destruct s; [reflexivity | discriminate].
Qed.

Lemma succeeded_true (job_status : json) :
  succeeded job_status = true <-> job_status = JStr "Success".
Proof. rewrite succeeded_eq. apply eq_str_true. Qed.

Lemma is_2xx_no_error (r : Response) : is_2xx r = true -> http_error_msg r = None.
Proof.
  unfold is_2xx, http_error_msg. intros H.
  apply andb_true_iff in H. destruct H as [H1 H2].
  apply Z.leb_le in H1. apply Z.ltb_lt in H2.
  replace (400 <=? status_code r) with false by (symmetry; apply Z.leb_gt; lia).
  replace (500 <=? status_code r) with false by (symmetry; apply Z.leb_gt; lia).
  reflexivity.
Qed.

Lemma http_error_msg_spec (r : Response) :
  match http_error_msg r with
  | Some _ => is_4xx_5xx r = true
  | None => is_4xx_5xx r = false
  end.
Proof.
  unfold http_error_msg, is_4xx_5xx.
  destruct (400 <=? status_code r) eqn:A; destruct (status_code r <? 500) eqn:B;
    destruct (500 <=? status_code r) eqn:C; destruct (status_code r <? 600) eqn:D;
    simpl; try reflexivity; lia.
Qed.

Lemma is_4xx_5xx_error (r : Response) :
  is_4xx_5xx r = true -> exists msg, http_error_msg r = Some msg.
Proof.
  intros H. pose proof (http_error_msg_spec r) as S.
  destruct (http_error_msg r); [eauto | congruence].
Qed.

Lemma observe_pending (reply : option Response) (snap : json) :
  observe reply = Pending snap <-> pending_reply reply snap.
Proof.
  unfold observe, pending_reply. split.
  - destruct reply as [r|]; [|discriminate].
    destruct (http_error_msg r) eqn:E; [discriminate|].
    destruct (parsed r) as [j|] eqn:P; [|discriminate].
    destruct (subscript j "status") as [st|e] eqn:S; [|discriminate].
    destruct (eq_str st "Success") eqn:Q; [discriminate|].
    intros H. inversion H. subst. exists r, st. repeat split; auto.
    intros ->. simpl in Q. discriminate.
  - intros (r & st & -> & E & P & S & N). rewrite E, P, S.
    destruct (eq_str st "Success") eqn:Q; [|reflexivity].
    apply eq_str_true in Q. contradiction.
Qed.

Lemma observe_succeeded (reply : option Response) (snap : json) :
  observe reply = Succeeded snap <-> success_reply reply snap.
Proof.
  unfold observe, success_reply. split.
  - destruct reply as [r|]; [|discriminate].
    destruct (http_error_msg r) eqn:E; [discriminate|].
    destruct (parsed r) as [j|] eqn:P; [|discriminate].
    destruct (subscript j "status") as [st|e] eqn:S; [|discriminate].
    destruct (eq_str st "Success") eqn:Q; [|discriminate].
    intros H. inversion H. subst. exists r. repeat split; auto.
    apply eq_str_true in Q. now subst.
  - intros (r & -> & E & P & S). rewrite E, P, S. reflexivity.
Qed.

(** ** One round of polling *)

(** A round is decided by the reply to its status query. *)
Lemma poll_round_spec {A} (job_id : json) (endpoint_url : string)
      (on_success : json -> M A) (w : World) :
  let q := status_query job_id endpoint_url in
  poll_round job_id endpoint_url on_success w =
  match observe (remote (sent w) q) with
  | Pending snap => (Return None, after_round q w snap)
  | Succeeded snap =>
      (a <- on_success snap ;; ret (Some a)) (after_request (Http q) w)
  | Failed e => (Raise e, after_request (Http q) w)
  end.
Proof.
  cbv zeta.
  unfold poll_round, check_job_status, requests_get, send, observe, bind at 1 2.
  fold (status_query job_id endpoint_url).
  destruct (remote (sent w) (status_query job_id endpoint_url)) as [r|]; [|reflexivity].
  unfold try_except, raise_for_status, bind at 1.
  destruct (http_error_msg r) as [msg|]; [reflexivity|].
  unfold ret at 1, response_json, bind at 1.
  destruct (parsed r) as [snap|]; [|reflexivity].
  unfold ret at 1, bind at 1, lift.
  destruct (subscript snap "status") as [st|e]; [|reflexivity].
  unfold ret at 1. rewrite succeeded_eq.
  destruct (eq_str st "Success"); reflexivity.
Qed.

Lemma after_rounds_app (q : Request) (xs ys : list json) (w : World) :
  after_rounds q (xs ++ ys) w = after_rounds q ys (after_rounds q xs w).
Proof. apply fold_left_app. Qed.

Lemma after_rounds_cons (q : Request) (snap : json) (rest : list json) (w : World) :
  after_rounds q (snap :: rest) w = after_rounds q rest (after_round q w snap).
Proof. reflexivity. Qed.

Lemma after_rounds_trace (q : Request) (snaps : list json) (w : World) :
  trace (after_rounds q snaps w) = trace w ++ rounds q snaps.
Proof.
  revert w. induction snaps as [|snap rest IH]; intros w.
  - simpl. now rewrite app_nil_r.
  - rewrite after_rounds_cons, IH. simpl.
    now rewrite <- !app_assoc.
Qed.

Lemma after_rounds_sent (q : Request) (snaps : list json) (w : World) :
  sent (after_rounds q snaps w) = (sent w + length snaps)%nat.
Proof.
  revert w. induction snaps as [|snap rest IH]; intros w.
  - simpl. lia.
  - rewrite after_rounds_cons, IH. simpl. lia.
Qed.

Lemma after_rounds_fs (q : Request) (snaps : list json) (w : World) :
  fs (after_rounds q snaps w) = fs w /\
  writable (after_rounds q snaps w) = writable w.
Proof.
  revert w. induction snaps as [|snap rest IH]; intros w; [now split|].
  rewrite after_rounds_cons.
  destruct (IH (after_round q w snap)) as [F W].
  now rewrite F, W.
Qed.

(** While the job is pending the loop goes round: each round uses one
    unit of fuel and leaves its three events. *)
Lemma loop_pending {A} (job_id : json) (endpoint_url : string)
      (on_success : json -> M A) (snaps : list json) :
  forall (w : World) (fuel : nat),
    pending_from (sent w) (status_query job_id endpoint_url) snaps ->
    while_true (length snaps + fuel) (poll_round job_id endpoint_url on_success) w =
    while_true fuel (poll_round job_id endpoint_url on_success)
               (after_rounds (status_query job_id endpoint_url) snaps w).
Proof.
  induction snaps as [|snap rest IH]; intros w fuel H; [reflexivity|].
  destruct H as [H1 H2]. apply observe_pending in H1.
  change (length (snap :: rest) + fuel)%nat with (S (length rest + fuel)).
  cbn [while_true]. unfold bind at 1.
  rewrite poll_round_spec, H1. cbn [after_rounds fold_left].
  apply IH. exact H2.
Qed.

(** The loop returns only through a round that saw "Success", after
    rounds that were all pending. *)
Lemma loop_return_inv {A} (job_id : json) (endpoint_url : string)
      (on_success : json -> M A) :
  forall (fuel : nat) (w w' : World) (a : A),
    while_true fuel (poll_round job_id endpoint_url on_success) w = (Return a, w') ->
    let q := status_query job_id endpoint_url in
    exists snaps snap,
      (length snaps < fuel)%nat /\
      pending_from (sent w) q snaps /\
      success_reply (remote (sent w + length snaps) q) snap /\
      on_success snap (after_request (Http q) (after_rounds q snaps w))
      = (Return a, w').
Proof.
  induction fuel as [|fuel IH]; intros w w' a H; [discriminate|].
  cbn [while_true] in H. unfold bind at 1 in H.
  rewrite poll_round_spec in H. cbv zeta.
  destruct (observe (remote (sent w) (status_query job_id endpoint_url)))
    as [snap|snap|e] eqn:O.
  - apply IH in H. cbv zeta in H.
    destruct H as (snaps & final & L & P & Hs & F).
    exists (snap :: snaps), final. cbn [length pending_from after_rounds fold_left].
    repeat split.
    + lia.
    + now apply observe_pending.
    + exact P.
    + replace (sent w + S (length snaps))%nat
        with (sent (after_round (status_query job_id endpoint_url) w snap)
              + length snaps)%nat by (simpl; lia).
      exact Hs.
    + exact F.
  - exists [], snap. cbn [length pending_from after_rounds fold_left].
    rewrite Nat.add_0_r. repeat split.
    + lia.
    + now apply observe_succeeded.
    + unfold bind in H.
      destruct (on_success snap _) as [[x|e|] w1]; try discriminate.
      unfold ret in H. now inversion H.
  - discriminate.
Qed.

(** More fuel does not change a run that has already left the loop. *)
Lemma while_true_mono {A} (body : M (option A)) :
  forall (fuel extra : nat) (w w' : World) (o : outcome A),
    while_true fuel body w = (o, w') -> o <> Running ->
    while_true (fuel + extra) body w = (o, w').
Proof.
  induction fuel as [|fuel IH]; intros extra w w' o H N.
  - simpl in H. inversion H. subst. contradiction.
  - cbn [while_true Nat.add] in *. unfold bind in *.
    destruct (body w) as [[[a|]|e|] w1]; auto.
Qed.

Lemma while_true_ext {A} (body1 body2 : M (option A)) :
  (forall w, body1 w = body2 w) ->
  forall fuel w, while_true fuel body1 w = while_true fuel body2 w.
Proof.
  intros E. induction fuel as [|fuel IH]; intros w; [reflexivity|].
  cbn [while_true]. unfold bind. rewrite E.
  destruct (body2 w) as [[[a|]|e|] w1]; auto.
Qed.

(** ** The methods, step by step *)

Lemma transcode_spec (fuel : nat) (transcoded_media_url output_path : string)
      (request_body : json) (w : World) :
  let c := transcode_submission request_body in
  transcode fuel transcoded_media_url output_path request_body w =
  match remote (sent w) c with
  | None => (Raise ConnectionError, after_request (Http c) w)
  | Some r =>
      match http_error_msg r with
      | Some _ => (Raise (Exception (text r)), after_request (Http c) w)
      | None =>
          match parsed r with
          | None => (Raise JSONDecodeError, after_request (Http c) w)
          | Some body =>
              match subscript body "job_id" with
              | inr e => (Raise e, after_request (Http c) w)
              | inl job_id =>
                  while_true fuel
                    (poll_round job_id transcode_url
                       (fun _ => download_media output_path transcoded_media_url))
                    (started c "Transcoding your media file..." job_id w)
              end
          end
      end
  end.
Proof.
  cbv zeta. unfold transcode, requests_post, send, bind at 1 2.
  fold transcode_url. fold (transcode_submission request_body).
  destruct (remote (sent w) (transcode_submission request_body)) as [r|]; [|reflexivity].
  unfold try_except, raise_for_status, bind at 1.
  destruct (http_error_msg r) as [msg|]; [reflexivity|].
  unfold ret at 1, response_json, bind at 1.
  destruct (parsed r) as [body|]; [|reflexivity].
  unfold ret at 1, bind at 1, lift.
  destruct (subscript body "job_id") as [job_id|e]; [|reflexivity].
  unfold ret at 1, bind at 1 2, print at 1 2.
  apply while_true_ext. intros w0. unfold poll_round, bind, lift.
  destruct (check_job_status job_id transcode_url w0) as [[jr|e|] w1]; try reflexivity.
  destruct (subscript jr "status") as [st|e]; [|reflexivity].
  unfold ret. destruct (succeeded st); [|reflexivity].
  destruct (download_media output_path transcoded_media_url w1) as [[[]|e|] w3];
    reflexivity.
Qed.

Lemma diagnose_spec (fuel : nat) (dolby_input_url : string) (w : World) :
  let c := diagnose_submission dolby_input_url in
  diagnose fuel dolby_input_url w =
  match remote (sent w) c with
  | None => (Raise ConnectionError, after_request (Http c) w)
  | Some r =>
      match http_error_msg r with
      | Some msg => (Raise (HTTPError msg r), after_request (Http c) w)
      | None =>
          match parsed r with
          | None => (Raise JSONDecodeError, after_request (Http c) w)
          | Some data =>
              match subscript data "job_id" with
              | inr e => (Raise e, after_request (Http c) w)
              | inl job_id =>
                  while_true fuel
                    (poll_round job_id diagnose_url report_media_info)
                    (started c "Diagnosing your media file..." job_id w)
              end
          end
      end
  end.
Proof.
  cbv zeta. unfold diagnose, requests_post, send, bind at 1.
  fold diagnose_url. fold (diagnose_submission dolby_input_url).
  destruct (remote (sent w) (diagnose_submission dolby_input_url)) as [r|]; [|reflexivity].
  unfold raise_for_status, bind at 1.
  destruct (http_error_msg r) as [msg|]; [reflexivity|].
  unfold ret at 1, response_json, bind at 1.
  destruct (parsed r) as [data|]; [|reflexivity].
  unfold ret at 1, bind at 1, lift.
  destruct (subscript data "job_id") as [job_id|e]; [|reflexivity].
  unfold ret at 1, bind at 1 2, print at 1 2.
  apply while_true_ext. intros w0. unfold poll_round, bind, lift.
  destruct (check_job_status job_id diagnose_url w0) as [[jr|e|] w1]; try reflexivity.
  destruct (subscript jr "status") as [st|e]; [|reflexivity].
  unfold ret. destruct (succeeded st); [|reflexivity].
  unfold report_media_info, bind, lift.
  destruct (subscript jr "result") as [res|e]; [|reflexivity].
  unfold ret.
  destruct (subscript res "media_info") as [m|e]; reflexivity.
Qed.

Lemma report_media_info_spec (snap : json) (w : World) :
  report_media_info snap w =
  match subscript snap "result" with
  | inr e => (Raise e, w)
  | inl result =>
      match subscript result "media_info" with
      | inr e => (Raise e, w)
      | inl media_info =>
          (Return media_info,
           log (Print [Str (newline ++ "Media Info: ")%string; Obj media_info]) w)
      end
  end.
Proof.
  unfold report_media_info, bind, lift.
  destruct (subscript snap "result") as [res|e]; [|reflexivity].
  unfold ret.
  destruct (subscript res "media_info") as [m|e]; [|reflexivity].
  unfold print. reflexivity.
Qed.

Lemma check_job_status_spec (job_id : json) (endpoint_url : string) (w : World) :
  let q := status_query job_id endpoint_url in
  check_job_status job_id endpoint_url w =
  match remote (sent w) q with
  | None => (Raise ConnectionError, after_request (Http q) w)
  | Some r =>
      match http_error_msg r with
      | Some _ => (Raise (Exception (text r)), after_request (Http q) w)
      | None =>
          match parsed r with
          | None => (Raise JSONDecodeError, after_request (Http q) w)
          | Some snap => (Return snap, after_request (Http q) w)
          end
      end
  end.
Proof.
  cbv zeta. unfold check_job_status, requests_get, send, bind at 1.
  fold (status_query job_id endpoint_url).
  destruct (remote (sent w) (status_query job_id endpoint_url)) as [r|]; [|reflexivity].
  unfold try_except, raise_for_status, bind at 1.
  destruct (http_error_msg r) as [msg|]; [reflexivity|].
  unfold ret at 1, response_json.
  destruct (parsed r) as [snap|]; reflexivity.
Qed.

Lemma download_media_spec (output_path transcoded_media_url : string) (w : World) :
  let q := download_request transcoded_media_url in
  download_media output_path transcoded_media_url w =
  match remote (sent w) q with
  | None => (Raise ConnectionError, after_request (Http q) w)
  | Some r =>
      match http_error_msg r with
      | Some msg => (Raise (HTTPError msg r), after_request (Http q) w)
      | None =>
          let w1 :=
            log (Print [Format (newline ++ "Downloading from {0} into {1}")%string
                               [JStr (response_url r); JStr output_path]])
                (after_request (Http q) w) in
          if writable w output_path then
            (Return tt,
             store output_path (copy_loop COPY_BUFSIZE (raw r) []) (store output_path [] w1))
          else (Raise (OSError output_path), w1)
      end
  end.
Proof.
  cbv zeta. unfold download_media, requests_get, send, bind at 1.
  fold (download_request transcoded_media_url).
  destruct (remote (sent w) (download_request transcoded_media_url)) as [r|]; [|reflexivity].
  unfold raise_for_status, bind at 1.
  destruct (http_error_msg r) as [msg|]; [reflexivity|].
  unfold ret at 1, bind at 1 2, print at 1, open_wb.
  cbn [writable log after_request].
  destruct (writable w output_path); [|reflexivity].
  unfold copyfileobj. cbn [fs store]. rewrite String.eqb_refl. reflexivity.
Qed.

(** Reading splits the stream, and reads nothing only at its end. *)
Lemma read_app (amt : Z) (fsrc buf rest : bytes) :
  read amt fsrc = (buf, rest) -> fsrc = buf ++ rest.
Proof.
  unfold read. destruct (amt <? 0); intros H; inversion H; subst.
  - now rewrite app_nil_r.
  - symmetry. apply firstn_skipn.
Qed.

Lemma read_nothing (amt : Z) (fsrc rest : bytes) :
  amt <> 0 -> read amt fsrc = ([], rest) -> fsrc = [].
Proof.
  unfold read. intros N. destruct (amt <? 0) eqn:L; intros H; inversion H; subst.
  - reflexivity.
  - apply Z.ltb_ge in L.
    destruct (Z.to_nat amt) as [|n] eqn:E; [lia|].
    destruct fsrc; [reflexivity | discriminate].
Qed.

(** The copy loop appends the whole stream, whatever the chunk size. *)
Lemma copy_loop_spec (len : Z) (fsrc fdst : bytes) :
  len <> 0 -> copy_loop len fsrc fdst = fdst ++ fsrc.
Proof.
  intros N. funelim (copy_loop len fsrc fdst).
  - rewrite (read_nothing _ _ _ N e). now rewrite app_nil_r.
  - rewrite H by exact N.
    rewrite (read_app _ _ _ _ e). now rewrite <- app_assoc.
Qed.

Lemma started_trace (c : Request) (banner : string) (job_id : json) (w : World) :
  trace (started c banner job_id w) = trace w ++ start_events c banner job_id.
Proof. simpl. now rewrite <- !app_assoc. Qed.

Lemma started_sent (c : Request) (banner : string) (job_id : json) (w : World) :
  sent (started c banner job_id w) = S (sent w).
Proof. reflexivity. Qed.

Lemma pending_from_map (q : Request) :
  forall (k n : nat) (snaps : nat -> json),
    (forall i, pending_reply (remote (n + i) q) (snaps i)) ->
    pending_from n q (map snaps (seq 0 k)).
Proof.
  induction k as [|k IH]; intros n snaps H; [exact I|].
  cbn [seq map pending_from]. split.
  - specialize (H 0%nat). now rewrite Nat.add_0_r in H.
  - rewrite <- seq_shift, map_map. apply IH.
    intros i. specialize (H (S i)). now rewrite Nat.add_succ_r in H.
Qed.

(** A job that stays pending keeps the loop going for any number of
    rounds. *)
Lemma loop_forever {A} (job_id : json) (endpoint_url : string)
      (on_success : json -> M A) (snaps : nat -> json) (w : World) :
  let q := status_query job_id endpoint_url in
  (forall i, pending_reply (remote (sent w + i) q) (snaps i)) ->
  forall fuel,
    while_true fuel (poll_round job_id endpoint_url on_success) w =
    (Running, after_rounds q (map snaps (seq 0 fuel)) w).
Proof.
  cbv zeta. intros H fuel.
  pose proof (loop_pending job_id endpoint_url on_success
                (map snaps (seq 0 fuel)) w 0
                (pending_from_map _ fuel (sent w) snaps H)) as L.
  rewrite length_map, length_seq, Nat.add_0_r in L. exact L.
Qed.

Lemma transcode_accepted (fuel : nat) (transcoded_media_url output_path : string)
      (request_body job_id : json) (w : World) :
  let c := transcode_submission request_body in
  accepted (remote (sent w) c) job_id ->
  transcode fuel transcoded_media_url output_path request_body w =
  while_true fuel
    (poll_round job_id transcode_url
       (fun _ => download_media output_path transcoded_media_url))
    (started c "Transcoding your media file..." job_id w).
Proof.
  cbv zeta. intros (r & body & R & E & P & J).
  rewrite transcode_spec. cbv zeta. now rewrite R, E, P, J.
Qed.

Lemma transcode_return_inv (fuel : nat) (transcoded_media_url output_path : string)
      (request_body : json) (w w' : World) (a : unit) :
  let c := transcode_submission request_body in
  transcode fuel transcoded_media_url output_path request_body w = (Return a, w') ->
  exists job_id, accepted (remote (sent w) c) job_id.
Proof.
  cbv zeta. rewrite transcode_spec. cbv zeta. unfold accepted.
  destruct (remote (sent w) (transcode_submission request_body)) as [r|]; [|discriminate].
  destruct (http_error_msg r) eqn:E; [discriminate|].
  destruct (parsed r) as [body|] eqn:P; [|discriminate].
  destruct (subscript body "job_id") as [job_id|e] eqn:J; [|discriminate].
  intros _. exists job_id, r, body. auto.
Qed.

Lemma diagnose_accepted (fuel : nat) (dolby_input_url : string)
      (job_id : json) (w : World) :
  let c := diagnose_submission dolby_input_url in
  accepted (remote (sent w) c) job_id ->
  diagnose fuel dolby_input_url w =
  while_true fuel (poll_round job_id diagnose_url report_media_info)
             (started c "Diagnosing your media file..." job_id w).
Proof.
  cbv zeta. intros (r & body & R & E & P & J).
  rewrite diagnose_spec. cbv zeta. now rewrite R, E, P, J.
Qed.

Lemma diagnose_return_inv (fuel : nat) (dolby_input_url : string)
      (w w' : World) (a : json) :
  let c := diagnose_submission dolby_input_url in
  diagnose fuel dolby_input_url w = (Return a, w') ->
  exists job_id, accepted (remote (sent w) c) job_id.
Proof.
  cbv zeta. rewrite diagnose_spec. cbv zeta. unfold accepted.
  destruct (remote (sent w) (diagnose_submission dolby_input_url)) as [r|]; [|discriminate].
  destruct (http_error_msg r) eqn:E; [discriminate|].
  destruct (parsed r) as [body|] eqn:P; [|discriminate].
  destruct (subscript body "job_id") as [job_id|e] eqn:J; [|discriminate].
  intros _. exists job_id, r, body. auto.
Qed.

Lemma download_return_inv (output_path transcoded_media_url : string)
      (w w' : World) (a : unit) :
  download_media output_path transcoded_media_url w = (Return a, w') ->
  exists r,
    remote (sent w) (download_request transcoded_media_url) = Some r /\
    http_error_msg r = None /\
    writable w output_path = true /\
    trace w' = trace w ++ download_events transcoded_media_url output_path r /\
    fs w' output_path = Some (copy_loop COPY_BUFSIZE (raw r) []).
Proof.
  rewrite download_media_spec. cbv zeta.
  destruct (remote (sent w) (download_request transcoded_media_url)) as [r|]; [|discriminate].
  destruct (http_error_msg r) eqn:E; [discriminate|].
  destruct (writable w output_path) eqn:W; [|discriminate].
  intros H. inversion H. subst. exists r. repeat split; auto.
  - simpl. now rewrite <- app_assoc.
  - simpl. now rewrite String.eqb_refl.
Qed.

Lemma report_return_inv (snap a : json) (w w' : World) :
  report_media_info snap w = (Return a, w') ->
  (exists result, subscript snap "result" = inl result /\
                  subscript result "media_info" = inl a) /\
  w' = log (Print [Str (newline ++ "Media Info: ")%string; Obj a]) w.
Proof.
  rewrite report_media_info_spec.
  destruct (subscript snap "result") as [res|e] eqn:R; [|discriminate].
  destruct (subscript res "media_info") as [m|e] eqn:Mi; [|discriminate].
  intros H. inversion H. subst. split; [eauto | reflexivity].
Qed.

(** C1. The loop of [transcode] and of [diagnose] polls the status
    endpoint with a 10 second sleep between two polls.  It returns only
    from a round whose snapshot has status "Success", after rounds that
    each logged their snapshot and slept; and as long as the snapshots
    show any other status it is still running, however many rounds are
    followed: there is no timeout and no bound on the attempts. *)
Theorem polling_stops_only_on_success
        (transcoded_media_url output_path : string) (request_body : json)
        (dolby_input_url : string) (w : World) :
  (forall fuel w',
      transcode fuel transcoded_media_url output_path request_body w
      = (Return tt, w') ->
      exists job_id snaps snap r,
        let c := transcode_submission request_body in
        let q := status_query job_id transcode_url in
        accepted (remote (sent w) c) job_id /\
        (length snaps < fuel)%nat /\
        pending_from (S (sent w)) q snaps /\
        success_reply (remote (S (sent w) + length snaps) q) snap /\
        trace w' =
        trace w ++ start_events c "Transcoding your media file..." job_id
              ++ rounds q snaps ++ [Http q]
              ++ download_events transcoded_media_url output_path r) /\
  (forall job_id (snaps : nat -> json),
      let c := transcode_submission request_body in
      let q := status_query job_id transcode_url in
      accepted (remote (sent w) c) job_id ->
      (forall i, pending_reply (remote (S (sent w) + i) q) (snaps i)) ->
      forall fuel, exists w',
        transcode fuel transcoded_media_url output_path request_body w
        = (Running, w') /\
        trace w' =
        trace w ++ start_events c "Transcoding your media file..." job_id
              ++ rounds q (map snaps (seq 0 fuel))) /\
  (forall fuel w' media_info,
      diagnose fuel dolby_input_url w = (Return media_info, w') ->
      exists job_id snaps snap,
        let c := diagnose_submission dolby_input_url in
        let q := status_query job_id diagnose_url in
        accepted (remote (sent w) c) job_id /\
        (length snaps < fuel)%nat /\
        pending_from (S (sent w)) q snaps /\
        success_reply (remote (S (sent w) + length snaps) q) snap /\
        trace w' =
        trace w ++ start_events c "Diagnosing your media file..." job_id
              ++ rounds q snaps
              ++ [Http q; Print [Str (newline ++ "Media Info: ")%string;
                                 Obj media_info]]) /\
  (forall job_id (snaps : nat -> json),
      let c := diagnose_submission dolby_input_url in
      let q := status_query job_id diagnose_url in
      accepted (remote (sent w) c) job_id ->
      (forall i, pending_reply (remote (S (sent w) + i) q) (snaps i)) ->
      forall fuel, exists w',
        diagnose fuel dolby_input_url w = (Running, w') /\
        trace w' =
        trace w ++ start_events c "Diagnosing your media file..." job_id
              ++ rounds q (map snaps (seq 0 fuel))).
Proof.
  repeat split.
  - intros fuel w' H.
    destruct (transcode_return_inv _ _ _ _ _ _ _ H) as [job_id Acc].
    rewrite (transcode_accepted _ _ _ _ job_id _ Acc) in H.
    apply loop_return_inv in H. cbv zeta in H.
    destruct H as (snaps & snap & L & P & Sx & D).
    apply download_return_inv in D.
    destruct D as (r & _ & _ & _ & T & _).
    exists job_id, snaps, snap, r. cbv zeta.
    rewrite started_sent in P, Sx. repeat split; auto.
    rewrite T. cbn [trace after_request].
    rewrite after_rounds_trace, started_trace. now rewrite <- !app_assoc.
  - intros job_id snaps c q Acc P fuel. subst c q.
    rewrite (transcode_accepted _ _ _ _ job_id _ Acc).
    rewrite (loop_forever _ _ _ snaps) by (now rewrite started_sent).
    eexists. split; [reflexivity|].
    rewrite after_rounds_trace, started_trace. now rewrite <- !app_assoc.
  - intros fuel w' media_info H.
    destruct (diagnose_return_inv _ _ _ _ _ H) as [job_id Acc].
    rewrite (diagnose_accepted _ _ job_id _ Acc) in H.
    apply loop_return_inv in H. cbv zeta in H.
    destruct H as (snaps & snap & L & P & Sx & D).
    apply report_return_inv in D. destruct D as [_ ->].
    exists job_id, snaps, snap. cbv zeta.
    rewrite started_sent in P, Sx. repeat split; auto.
    cbn [trace log after_request].
    rewrite after_rounds_trace, started_trace. now rewrite <- !app_assoc.
  - intros job_id snaps c q Acc P fuel. subst c q.
    rewrite (diagnose_accepted _ _ job_id _ Acc).
    rewrite (loop_forever _ _ _ snaps) by (now rewrite started_sent).
    eexists. split; [reflexivity|].
    rewrite after_rounds_trace, started_trace. now rewrite <- !app_assoc.
Qed.

(** C2, as amended.  When the reply to the submission of [transcode] or
    to a status query has a status from 400 to 599, the call raises
    [Exception] with the text of the reply as its argument, right after
    the request. *)
Theorem error_status_raises_body (r : Response) :
  is_4xx_5xx r = true ->
  (forall job_id endpoint_url w,
      remote (sent w) (status_query job_id endpoint_url) = Some r ->
      check_job_status job_id endpoint_url w
      = (Raise (Exception (text r)),
         after_request (Http (status_query job_id endpoint_url)) w)) /\
  (forall fuel transcoded_media_url output_path request_body w,
      remote (sent w) (transcode_submission request_body) = Some r ->
      transcode fuel transcoded_media_url output_path request_body w
      = (Raise (Exception (text r)),
         after_request (Http (transcode_submission request_body)) w)) /\
  exn_arg (Exception (text r)) = Some (text r).
Proof.
  intros E. apply is_4xx_5xx_error in E. destruct E as [msg E].
  repeat split.
  - intros job_id endpoint_url w R.
    rewrite check_job_status_spec. cbv zeta. now rewrite R, E.
  - intros fuel tmu out body w R.
    rewrite transcode_spec. cbv zeta. now rewrite R, E.
Qed.

(** C6, as amended.  When the submission of [transcode] or of
    [diagnose] is answered with a status from 400 to 599, the method
    raises an error that holds the text of the reply ([Exception] with
    the text as its argument in [transcode], the [HTTPError] of
    [raise_for_status] with the response in [diagnose]) and the
    submission is the only event of the run: no job identifier is read
    or printed, and there is no status query and no sleep, whatever the
    number of rounds allowed. *)
Theorem rejected_submission_creates_no_job (r : Response) (w : World) :
  is_4xx_5xx r = true ->
  (forall fuel transcoded_media_url output_path request_body,
      let c := transcode_submission request_body in
      remote (sent w) c = Some r ->
      exists e w',
        transcode fuel transcoded_media_url output_path request_body w
        = (Raise e, w') /\
        e = Exception (text r) /\
        error_text e = Some (text r) /\
        trace w' = trace w ++ [Http c] /\ sent w' = S (sent w)) /\
  (forall fuel dolby_input_url,
      let c := diagnose_submission dolby_input_url in
      remote (sent w) c = Some r ->
      exists e w',
        diagnose fuel dolby_input_url w = (Raise e, w') /\
        (exists msg, http_error_msg r = Some msg /\ e = HTTPError msg r) /\
        error_text e = Some (text r) /\
        trace w' = trace w ++ [Http c] /\ sent w' = S (sent w)).
Proof.
  intros E. apply is_4xx_5xx_error in E. destruct E as [msg E]. split.
  - intros fuel tmu out body c R. subst c.
    rewrite transcode_spec. cbv zeta. rewrite R, E.
    eexists. eexists. repeat split; reflexivity.
  - intros fuel input c R. subst c.
    rewrite diagnose_spec. cbv zeta. rewrite R, E.
    eexists. eexists. split; [reflexivity|].
    split; [exists msg; split; reflexivity|].
    repeat split; reflexivity.
Qed.

(** ** Leaving the loop *)

Lemma loop_success {A} (job_id : json) (endpoint_url : string)
      (on_success : json -> M A) (snaps : list json) (snap : json)
      (w : World) (fuel : nat) :
  let q := status_query job_id endpoint_url in
  pending_from (sent w) q snaps ->
  success_reply (remote (sent w + length snaps) q) snap ->
  while_true (length snaps + S fuel) (poll_round job_id endpoint_url on_success) w =
  (a <- on_success snap ;; ret a) (after_request (Http q) (after_rounds q snaps w)).
Proof.
  cbv zeta. intros P Sx. rewrite loop_pending by exact P.
  cbn [while_true]. unfold bind at 1. rewrite poll_round_spec. cbv zeta.
  rewrite after_rounds_sent. apply observe_succeeded in Sx. rewrite Sx.
  unfold bind, ret.
  destruct (on_success snap _) as [[a|e|] w1]; reflexivity.
Qed.

Lemma loop_failure {A} (job_id : json) (endpoint_url : string)
      (on_success : json -> M A) (snaps : list json) (e : exn)
      (w : World) (fuel : nat) :
  let q := status_query job_id endpoint_url in
  pending_from (sent w) q snaps ->
  observe (remote (sent w + length snaps) q) = Failed e ->
  while_true (length snaps + S fuel) (poll_round job_id endpoint_url on_success) w =
  (Raise e, after_request (Http q) (after_rounds q snaps w)).
Proof.
  cbv zeta. intros P F. rewrite loop_pending by exact P.
  cbn [while_true]. unfold bind at 1. rewrite poll_round_spec. cbv zeta.
  rewrite after_rounds_sent, F. reflexivity.
Qed.

Lemma after_request_trace (ev : Event) (w : World) :
  trace (after_request ev w) = trace w ++ [ev].
Proof. reflexivity. Qed.

Lemma polled_trace (c q : Request) (banner : string) (job_id : json)
      (snaps : list json) (w : World) :
  trace (after_request (Http q) (after_rounds q snaps (started c banner job_id w))) =
  trace w ++ start_events c banner job_id ++ rounds q snaps ++ [Http q].
Proof.
  cbn [trace after_request].
  rewrite after_rounds_trace, started_trace. now rewrite <- !app_assoc.
Qed.

(** C7. When the status query of a [diagnose] job shows "Success",
    after any number of pending rounds, [diagnose] returns the
    [media_info] object found under [result] in that snapshot, as it is;
    it has slept once per pending round. *)
Theorem diagnose_returns_media_info
        (dolby_input_url : string) (w : World)
        (job_id : json) (snaps : list json) (snap result media_info : json) :
  let c := diagnose_submission dolby_input_url in
  let q := status_query job_id diagnose_url in
  accepted (remote (sent w) c) job_id ->
  pending_from (S (sent w)) q snaps ->
  success_reply (remote (S (sent w) + length snaps) q) snap ->
  subscript snap "result" = inl result ->
  subscript result "media_info" = inl media_info ->
  forall fuel, exists w',
    diagnose (length snaps + S fuel) dolby_input_url w = (Return media_info, w') /\
    trace w' =
    trace w ++ start_events c "Diagnosing your media file..." job_id
          ++ rounds q snaps
          ++ [Http q; Print [Str (newline ++ "Media Info: ")%string; Obj media_info]].
Proof.
  cbv zeta. intros Acc P Sx R Mi fuel.
  rewrite (diagnose_accepted _ _ job_id _ Acc).
  rewrite (loop_success _ _ _ snaps snap) by (rewrite ?started_sent; assumption).
  unfold bind. rewrite report_media_info_spec, R, Mi. unfold ret.
  eexists. split; [reflexivity|].
  cbn [trace log]. rewrite polled_trace. now rewrite <- !app_assoc.
Qed.

(** C5, as amended.  In the loop, a status query answered with a status
    from 400 to 599 raises [Exception] with the text of the reply; the
    error leaves the loop and the method at once: the failed query is
    the last event of the run, whatever the number of rounds allowed. *)
Theorem error_status_aborts_polling
        (job_id : json) (snaps : list json) (r : Response) (w : World) :
  is_4xx_5xx r = true ->
  (forall transcoded_media_url output_path request_body fuel,
      let c := transcode_submission request_body in
      let q := status_query job_id transcode_url in
      accepted (remote (sent w) c) job_id ->
      pending_from (S (sent w)) q snaps ->
      remote (S (sent w) + length snaps) q = Some r ->
      exists w',
        transcode (length snaps + S fuel) transcoded_media_url output_path
                  request_body w
        = (Raise (Exception (text r)), w') /\
        trace w' =
        trace w ++ start_events c "Transcoding your media file..." job_id
              ++ rounds q snaps ++ [Http q]) /\
  (forall dolby_input_url fuel,
      let c := diagnose_submission dolby_input_url in
      let q := status_query job_id diagnose_url in
      accepted (remote (sent w) c) job_id ->
      pending_from (S (sent w)) q snaps ->
      remote (S (sent w) + length snaps) q = Some r ->
      exists w',
        diagnose (length snaps + S fuel) dolby_input_url w
        = (Raise (Exception (text r)), w') /\
        trace w' =
        trace w ++ start_events c "Diagnosing your media file..." job_id
              ++ rounds q snaps ++ [Http q]).
Proof.
  intros E. apply is_4xx_5xx_error in E. destruct E as [msg E].
  split.
  - intros tmu out body fuel c q Acc P R. subst c q.
    rewrite (transcode_accepted _ _ _ _ job_id _ Acc).
    rewrite (loop_failure _ _ _ snaps (Exception (text r)))
      by (rewrite ?started_sent; try assumption; unfold observe; now rewrite R, E).
    eexists. split; [reflexivity | apply polled_trace].
  - intros input fuel c q Acc P R. subst c q.
    rewrite (diagnose_accepted _ _ job_id _ Acc).
    rewrite (loop_failure _ _ _ snaps (Exception (text r)))
      by (rewrite ?started_sent; try assumption; unfold observe; now rewrite R, E).
    eexists. split; [reflexivity | apply polled_trace].
Qed.

(** C10. A 2xx reply whose decoded body has no "job_id" (for a
    submission) or no "status" (for a status query) makes the subscript
    raise, a [KeyError] when the body is a dict; the error leaves the
    method at once, with nothing logged, no sleep and no further
    request. *)
Theorem missing_key_aborts
        (r : Response) (body : json) (e : exn) (w : World) :
  is_2xx r = true ->
  parsed r = Some body ->
  (subscript body "job_id" = inr e ->
   (forall fuel transcoded_media_url output_path request_body,
       let c := transcode_submission request_body in
       remote (sent w) c = Some r ->
       transcode fuel transcoded_media_url output_path request_body w
       = (Raise e, after_request (Http c) w)) /\
   (forall fuel dolby_input_url,
       let c := diagnose_submission dolby_input_url in
       remote (sent w) c = Some r ->
       diagnose fuel dolby_input_url w = (Raise e, after_request (Http c) w))) /\
  (subscript body "status" = inr e ->
   forall job_id snaps fuel,
     (forall transcoded_media_url output_path request_body,
         let c := transcode_submission request_body in
         let q := status_query job_id transcode_url in
         accepted (remote (sent w) c) job_id ->
         pending_from (S (sent w)) q snaps ->
         remote (S (sent w) + length snaps) q = Some r ->
         exists w',
           transcode (length snaps + S fuel) transcoded_media_url output_path
                     request_body w = (Raise e, w') /\
           trace w' =
           trace w ++ start_events c "Transcoding your media file..." job_id
                 ++ rounds q snaps ++ [Http q]) /\
     (forall dolby_input_url,
         let c := diagnose_submission dolby_input_url in
         let q := status_query job_id diagnose_url in
         accepted (remote (sent w) c) job_id ->
         pending_from (S (sent w)) q snaps ->
         remote (S (sent w) + length snaps) q = Some r ->
         exists w',
           diagnose (length snaps + S fuel) dolby_input_url w = (Raise e, w') /\
           trace w' =
           trace w ++ start_events c "Diagnosing your media file..." job_id
                 ++ rounds q snaps ++ [Http q])) /\
  (forall fields key, body = JObj fields -> subscript body key = inr e ->
                      e = KeyError key).
Proof.
  intros X P. apply is_2xx_no_error in X.
  split; [intros J; split | split; [intros J job_id snaps fuel; split |]].
  - intros fuel tmu out rb c R. subst c.
    rewrite transcode_spec. cbv zeta. now rewrite R, X, P, J.
  - intros fuel input c R. subst c.
    rewrite diagnose_spec. cbv zeta. now rewrite R, X, P, J.
  - intros tmu out rb c q Acc Pe R. subst c q.
    rewrite (transcode_accepted _ _ _ _ job_id _ Acc).
    rewrite (loop_failure _ _ _ snaps e)
      by (rewrite ?started_sent; try assumption; unfold observe; now rewrite R, X, P, J).
    eexists. split; [reflexivity | apply polled_trace].
  - intros input c q Acc Pe R. subst c q.
    rewrite (diagnose_accepted _ _ job_id _ Acc).
    rewrite (loop_failure _ _ _ snaps e)
      by (rewrite ?started_sent; try assumption; unfold observe; now rewrite R, X, P, J).
    eexists. split; [reflexivity | apply polled_trace].
  - intros fields key -> J. simpl in J.
    destruct (lookup key fields); congruence.
Qed.

(** ** What a computation adds to the trace *)

Section Emits.

Variable P : Event -> Prop.

Lemma emits_ret {A} (a : A) : emits P (ret a).
Proof. intros w. exists []. simpl. now rewrite app_nil_r. Qed.

Lemma emits_raise {A} (e : exn) : emits P (@raise A e).
Proof. intros w. exists []. simpl. now rewrite app_nil_r. Qed.

Lemma emits_bind {A B} (m : M A) (k : A -> M B) :
  emits P m -> (forall a, emits P (k a)) -> emits P (bind m k).
Proof.
  intros Hm Hk w. unfold bind. destruct (Hm w) as (evs & T & F).
  destruct (m w) as [[a|e|] w1]; simpl in T.
  - destruct (Hk a w1) as (evs' & T' & F').
    exists (evs ++ evs'). rewrite T', T, app_assoc. split; [reflexivity|].
    apply Forall_app; auto.
  - exists evs. auto.
  - exists evs. auto.
Qed.

Lemma emits_try_except {A} (body handler : M A) (catches : exn -> bool) :
  emits P body -> emits P handler -> emits P (try_except body catches handler).
Proof.
  intros Hb Hh w. unfold try_except. destruct (Hb w) as (evs & T & F).
  destruct (body w) as [[a|e|] w1]; simpl in T; try (exists evs; now auto).
  destruct (catches e); [|exists evs; now auto].
  destruct (Hh w1) as (evs' & T' & F').
  exists (evs ++ evs'). rewrite T', T, app_assoc. split; [reflexivity|].
  apply Forall_app; auto.
Qed.

Lemma emits_lift {A} (r : A + exn) : emits P (lift r).
Proof. destruct r; [apply emits_ret | apply emits_raise]. Qed.

Lemma emits_while_true {A} (body : M (option A)) :
  emits P body -> forall fuel, emits P (while_true fuel body).
Proof.
  intros Hb. induction fuel as [|fuel IH].
  - intros w. exists []. simpl. now rewrite app_nil_r.
  - cbn [while_true]. apply emits_bind; [exact Hb|].
    intros [a|]; [apply emits_ret | exact IH].
Qed.

Lemma emits_print (args : list pyarg) : P (Print args) -> emits P (print args).
Proof. intros H w. exists [Print args]. simpl. auto. Qed.

Lemma emits_sleep (seconds : Z) : P (Sleep seconds) -> emits P (sleep seconds).
Proof. intros H w. exists [Sleep seconds]. simpl. auto. Qed.

Lemma emits_send (q : Request) : P (Http q) -> emits P (send q).
Proof.
  intros H w. exists [Http q]. unfold send.
  destruct (remote (sent w) q); simpl; auto.
Qed.

Lemma emits_raise_for_status (r : Response) : emits P (raise_for_status r).
Proof.
  unfold raise_for_status.
  destruct (http_error_msg r); [apply emits_raise | apply emits_ret].
Qed.

Lemma emits_response_json (r : Response) : emits P (response_json r).
Proof.
  unfold response_json. destruct (parsed r); [apply emits_ret | apply emits_raise].
Qed.

Lemma emits_open_rb (path : string) : emits P (open_rb path).
Proof.
  intros w. exists []. unfold open_rb.
  destruct (fs w path); simpl; now rewrite app_nil_r.
Qed.

Lemma emits_open_wb (path : string) : emits P (open_wb path).
Proof.
  intros w. exists []. unfold open_wb.
  destruct (writable w path); simpl; now rewrite app_nil_r.
Qed.

Lemma emits_copyfileobj (fsrc : bytes) (path : string) (len : Z) :
  emits P (copyfileobj fsrc path len).
Proof. intros w. exists []. simpl. now rewrite app_nil_r. Qed.

Hypothesis P_print : forall args, P (Print args).
Hypothesis P_sleep : forall seconds, P (Sleep seconds).

Lemma emits_check_job_status (job_id : json) (endpoint_url : string) :
  P (Http (status_query job_id endpoint_url)) ->
  emits P (check_job_status job_id endpoint_url).
Proof.
  intros H. unfold check_job_status.
  apply emits_bind; [apply emits_send; exact H|]. intros r.
  apply emits_bind; [|intros _; apply emits_response_json].
  apply emits_try_except; [apply emits_raise_for_status | apply emits_raise].
Qed.

Lemma emits_download_media (output_path transcoded_media_url : string) :
  P (Http (download_request transcoded_media_url)) ->
  emits P (download_media output_path transcoded_media_url).
Proof.
  intros H. unfold download_media.
  apply emits_bind; [apply emits_send; exact H|]. intros r.
  apply emits_bind; [apply emits_raise_for_status|]. intros _.
  apply emits_bind; [apply emits_print, P_print|]. intros _.
  apply emits_bind; [apply emits_open_wb|]. intros _.
  apply emits_copyfileobj.
Qed.

Lemma emits_report_media_info (snap : json) : emits P (report_media_info snap).
Proof.
  unfold report_media_info.
  repeat (apply emits_bind; [first [apply emits_lift | apply emits_print, P_print]|];
          intros ?).
  apply emits_ret.
Qed.

Lemma emits_poll_round {A} (job_id : json) (endpoint_url : string)
      (on_success : json -> M A) :
  P (Http (status_query job_id endpoint_url)) ->
  (forall snap, emits P (on_success snap)) ->
  emits P (poll_round job_id endpoint_url on_success).
Proof.
  intros H Hs. unfold poll_round.
  apply emits_bind; [apply emits_check_job_status; exact H|]. intros jr.
  apply emits_bind; [apply emits_lift|]. intros st.
  destruct (succeeded st).
  - apply emits_bind; [apply Hs|]. intros a. apply emits_ret.
  - apply emits_bind; [apply emits_print, P_print|]. intros _.
    apply emits_bind; [apply emits_sleep, P_sleep|]. intros _.
    apply emits_ret.
Qed.

Lemma emits_transcode (fuel : nat) (transcoded_media_url output_path : string)
      (request_body : json) :
  P (Http (transcode_submission request_body)) ->
  (forall job_id, P (Http (status_query job_id transcode_url))) ->
  P (Http (download_request transcoded_media_url)) ->
  emits P (transcode fuel transcoded_media_url output_path request_body).
Proof.
  intros Hc Hq Hd. unfold transcode.
  apply emits_bind; [apply emits_send; exact Hc|]. intros r.
  apply emits_bind;
    [apply emits_try_except; [apply emits_raise_for_status | apply emits_raise]|].
  intros _.
  apply emits_bind; [apply emits_response_json|]. intros body.
  apply emits_bind; [apply emits_lift|]. intros job_id.
  apply emits_bind; [apply emits_print, P_print|]. intros _.
  apply emits_bind; [apply emits_print, P_print|]. intros _.
  apply emits_while_true.
  apply emits_bind; [apply emits_check_job_status, Hq|]. intros job_response.
  apply emits_bind; [apply emits_lift|]. intros job_status.
  destruct (succeeded job_status).
  - apply emits_bind; [apply emits_download_media, Hd|].
    intros _. apply emits_ret.
  - apply emits_bind; [apply emits_print, P_print|]. intros _.
    apply emits_bind; [apply emits_sleep, P_sleep|]. intros _.
    apply emits_ret.
Qed.

Lemma emits_diagnose (fuel : nat) (dolby_input_url : string) :
  P (Http (diagnose_submission dolby_input_url)) ->
  (forall job_id, P (Http (status_query job_id diagnose_url))) ->
  emits P (diagnose fuel dolby_input_url).
Proof.
  intros Hc Hq w. rewrite diagnose_spec. cbv zeta.
  destruct (remote (sent w) (diagnose_submission dolby_input_url)) as [r|];
    [|exists [Http (diagnose_submission dolby_input_url)]; simpl; now auto].
  destruct (http_error_msg r);
    [exists [Http (diagnose_submission dolby_input_url)]; simpl; now auto|].
  destruct (parsed r) as [data|];
    [|exists [Http (diagnose_submission dolby_input_url)]; simpl; now auto].
  destruct (subscript data "job_id") as [job_id|e];
    [|exists [Http (diagnose_submission dolby_input_url)]; simpl; now auto].
  destruct (emits_while_true
              (poll_round job_id diagnose_url report_media_info)
              (emits_poll_round job_id diagnose_url report_media_info
                                (Hq job_id) emits_report_media_info)
              fuel
              (started (diagnose_submission dolby_input_url)
                       "Diagnosing your media file..." job_id w))
    as (evs & T & F).
  exists (start_events (diagnose_submission dolby_input_url)
                       "Diagnosing your media file..." job_id ++ evs).
  rewrite T, started_trace, app_assoc. split; [reflexivity|].
  apply Forall_app. split; [|exact F].
  repeat constructor; auto.
Qed.

Lemma emits_prepare_media (file_path dolby_input_url : string) :
  P (Http (input_registration dolby_input_url)) ->
  (forall u data, P (Http (presigned_upload u data))) ->
  emits P (prepare_media file_path dolby_input_url).
Proof.
  intros Hc Hu. unfold prepare_media.
  apply emits_bind; [apply emits_send; exact Hc|]. intros r.
  apply emits_bind; [apply emits_raise_for_status|]. intros _.
  apply emits_bind; [apply emits_response_json|]. intros data.
  apply emits_bind; [apply emits_lift|]. intros presigned_url.
  apply emits_bind; [apply emits_print, P_print|]. intros _.
  apply emits_bind; [apply emits_open_rb|]. intros input_file.
  apply emits_bind; [|intros _; apply emits_ret].
  unfold requests_put.
  destruct (url_fault presigned_url); [apply emits_raise|].
  destruct presigned_url; try apply emits_raise.
  apply emits_send, Hu.
Qed.

End Emits.

(** C9, as amended.  Every request the client sends carries the
    [x-api-key], [Content-Type] and [Accept] headers of
    [REQUEST_HEADERS], but for the upload of [prepare_media] to the
    presigned URL, which is sent with no header of the client. *)
Theorem requests_carry_headers :
  (forall file_path dolby_input_url,
      emits carries_headers_or_uploads (prepare_media file_path dolby_input_url)) /\
  (forall u data, headers (presigned_upload u data) = []) /\
  (forall job_id endpoint_url,
      emits carries_headers (check_job_status job_id endpoint_url)) /\
  (forall output_path transcoded_media_url,
      emits carries_headers (download_media output_path transcoded_media_url)) /\
  (forall fuel transcoded_media_url output_path request_body,
      emits carries_headers
            (transcode fuel transcoded_media_url output_path request_body)) /\
  (forall fuel dolby_input_url,
      emits carries_headers (diagnose fuel dolby_input_url)).
Proof.
  repeat split.
  - intros. apply emits_prepare_media; simpl; eauto.
  - intros. apply emits_check_job_status; simpl; auto.
  - intros. apply emits_download_media; simpl; auto.
  - intros. apply emits_transcode; simpl; auto.
  - intros. apply emits_diagnose; simpl; auto.
Qed.

(** A loop that is given a round sends its status query first. *)
Lemma loop_polls_first {A} (P : Event -> Prop) (job_id : json)
      (endpoint_url : string) (on_success : json -> M A) :
  (forall args, P (Print args)) ->
  (forall seconds, P (Sleep seconds)) ->
  P (Http (status_query job_id endpoint_url)) ->
  (forall snap, emits P (on_success snap)) ->
  forall fuel w,
  exists evs,
    trace (snd (while_true (S fuel) (poll_round job_id endpoint_url on_success) w)) =
    trace w ++ Http (status_query job_id endpoint_url) :: evs /\
    Forall P evs.
Proof.
  intros Pp Ps Pq Hs fuel w.
  cbn [while_true]. unfold bind at 1. rewrite poll_round_spec. cbv zeta.
  destruct (observe (remote (sent w) (status_query job_id endpoint_url)))
    as [snap|snap|e].
  - destruct (emits_while_true P (poll_round job_id endpoint_url on_success)
                (emits_poll_round P Pp Ps job_id endpoint_url on_success Pq Hs)
                fuel
                (after_round (status_query job_id endpoint_url) w snap))
      as (evs & T & F).
    exists (Print [Obj snap] :: Sleep 10 :: evs). rewrite T. split.
    + simpl. now rewrite <- !app_assoc.
    + auto.
  - destruct (Hs snap (after_request (Http (status_query job_id endpoint_url)) w))
      as (evs & T & F).
    exists evs. split; [|exact F].
    unfold bind.
    destruct (on_success snap _) as [[a|e|] w1]; simpl in T |- *;
      rewrite T; now rewrite <- app_assoc.
  - exists []. split; [reflexivity | constructor].
Qed.

(** C4. When the submission of [transcode] or [diagnose] is answered
    with a 2xx reply whose body has a "job_id" field, that value is the
    job identifier: it is what the method prints as the job ID, and it
    is the [job_id] parameter of the status queries.  The run sends one
    such query for each pending round and one more after them, and
    every request that follows is again such a query, or the download
    of [transcode]. *)
Theorem job_id_is_extracted_and_polled
        (r : Response) (body job_id : json) (w : World) :
  is_2xx r = true ->
  parsed r = Some body ->
  subscript body "job_id" = inl job_id ->
  (forall snaps fuel transcoded_media_url output_path request_body,
      let c := transcode_submission request_body in
      let q := status_query job_id transcode_url in
      remote (sent w) c = Some r ->
      pending_from (S (sent w)) q snaps ->
      exists evs,
        trace (snd (transcode (length snaps + S fuel) transcoded_media_url
                              output_path request_body w)) =
        trace w ++ start_events c "Transcoding your media file..." job_id
              ++ rounds q snaps ++ Http q :: evs /\
        Forall (polls_job job_id transcode_url
                          [download_request transcoded_media_url]) evs) /\
  (forall snaps fuel dolby_input_url,
      let c := diagnose_submission dolby_input_url in
      let q := status_query job_id diagnose_url in
      remote (sent w) c = Some r ->
      pending_from (S (sent w)) q snaps ->
      exists evs,
        trace (snd (diagnose (length snaps + S fuel) dolby_input_url w)) =
        trace w ++ start_events c "Diagnosing your media file..." job_id
              ++ rounds q snaps ++ Http q :: evs /\
        Forall (polls_job job_id diagnose_url []) evs) /\
  (forall fuel transcoded_media_url output_path request_body,
      let c := transcode_submission request_body in
      remote (sent w) c = Some r ->
      exists evs,
        trace (snd (transcode fuel transcoded_media_url output_path request_body w)) =
        trace w ++ start_events c "Transcoding your media file..." job_id ++ evs /\
        Forall (polls_job job_id transcode_url
                          [download_request transcoded_media_url]) evs) /\
  (forall fuel dolby_input_url,
      let c := diagnose_submission dolby_input_url in
      remote (sent w) c = Some r ->
      exists evs,
        trace (snd (diagnose fuel dolby_input_url w)) =
        trace w ++ start_events c "Diagnosing your media file..." job_id ++ evs /\
        Forall (polls_job job_id diagnose_url []) evs).
Proof.
  intros X Pb J. apply is_2xx_no_error in X.
  split; [|split; [|split]].
  - intros snaps fuel tmu out rb c q R Pe. subst c q.
    rewrite (transcode_accepted _ _ _ _ job_id)
      by (exists r, body; auto).
    rewrite loop_pending by (now rewrite started_sent).
    assert (forall snap : json,
               emits (polls_job job_id transcode_url [download_request tmu])
                     ((fun _ => download_media out tmu) snap)) as Hd.
    { intros _. apply emits_download_media; simpl; auto. }
    destruct (loop_polls_first
                (polls_job job_id transcode_url [download_request tmu])
                job_id transcode_url (fun _ => download_media out tmu)
                (fun _ => I) (fun _ => I) (or_introl eq_refl) Hd fuel
                (after_rounds (status_query job_id transcode_url) snaps
                   (started (transcode_submission rb)
                            "Transcoding your media file..." job_id w)))
      as (evs & T & F).
    exists evs. split; [|exact F].
    rewrite T, after_rounds_trace, started_trace. now rewrite <- !app_assoc.
  - intros snaps fuel input c q R Pe. subst c q.
    rewrite (diagnose_accepted _ _ job_id)
      by (exists r, body; auto).
    rewrite loop_pending by (now rewrite started_sent).
    assert (forall snap : json,
               emits (polls_job job_id diagnose_url []) (report_media_info snap))
      as Hr.
    { intros snap. apply emits_report_media_info. simpl. auto. }
    destruct (loop_polls_first
                (polls_job job_id diagnose_url [])
                job_id diagnose_url report_media_info
                (fun _ => I) (fun _ => I) (or_introl eq_refl) Hr fuel
                (after_rounds (status_query job_id diagnose_url) snaps
                   (started (diagnose_submission input)
                            "Diagnosing your media file..." job_id w)))
      as (evs & T & F).
    exists evs. split; [|exact F].
    rewrite T, after_rounds_trace, started_trace. now rewrite <- !app_assoc.
  - intros fuel tmu out rb c R. subst c.
    rewrite (transcode_accepted _ _ _ _ job_id)
      by (exists r, body; auto).
    destruct (emits_while_true
                (polls_job job_id transcode_url [download_request tmu])
                (poll_round job_id transcode_url (fun _ => download_media out tmu)))
      with (fuel := fuel)
           (w := started (transcode_submission rb)
                         "Transcoding your media file..." job_id w)
      as (evs & T & F).
    + apply emits_poll_round; simpl; auto.
      intros _. apply emits_download_media; simpl; auto.
    + exists evs. rewrite T, started_trace, <- app_assoc. auto.
  - intros fuel input c R. subst c.
    rewrite (diagnose_accepted _ _ job_id)
      by (exists r, body; auto).
    destruct (emits_while_true
                (polls_job job_id diagnose_url [])
                (poll_round job_id diagnose_url report_media_info))
      with (fuel := fuel)
           (w := started (diagnose_submission input)
                         "Diagnosing your media file..." job_id w)
      as (evs & T & F).
    + apply emits_poll_round; simpl; auto.
      intros snap. apply emits_report_media_info. simpl. auto.
    + exists evs. rewrite T, started_trace, <- app_assoc. auto.
Qed.

(** C8. When the download request is answered with a status that is
    not an error and the destination can be opened, [download_media]
    completes and the destination file then holds exactly the bytes of
    the response body, whatever it held before; and whenever
    [download_media] completes this is so.  The chunk size of the copy,
    [COPY_BUFSIZE] or any other, does not matter as long as it is not
    zero. *)
Theorem download_writes_body
        (output_path transcoded_media_url : string) (w : World) :
  COPY_BUFSIZE <> 0 ->
  let q := download_request transcoded_media_url in
  (forall r,
      remote (sent w) q = Some r ->
      http_error_msg r = None ->
      writable w output_path = true ->
      exists w',
        download_media output_path transcoded_media_url w = (Return tt, w') /\
        fs w' output_path = Some (raw r)) /\
  (forall w',
      download_media output_path transcoded_media_url w = (Return tt, w') ->
      exists r, remote (sent w) q = Some r /\ fs w' output_path = Some (raw r)) /\
  (forall len fsrc, len <> 0 -> copy_loop len fsrc [] = fsrc).
Proof.
  intros N. cbv zeta. repeat split.
  - intros r R E W. rewrite download_media_spec. cbv zeta. rewrite R, E, W.
    eexists. split; [reflexivity|].
    simpl. rewrite String.eqb_refl. now rewrite copy_loop_spec.
  - intros w' H. apply download_return_inv in H.
    destruct H as (r & R & _ & _ & _ & F). exists r. split; [exact R|].
    rewrite F. now rewrite copy_loop_spec.
  - intros len fsrc L. now rewrite copy_loop_spec.
Qed.

(** C3, as amended.  When the status query of a [transcode] job shows
    "Success", [transcode] sends a streamed GET to the media output
    endpoint, with the caller's [transcoded_media_url] as its [url]
    parameter, and writes the response body to the caller's
    [output_path]; nothing of the snapshot but its status is used. *)
Theorem transcode_downloads_to_destination
        (transcoded_media_url output_path : string) (request_body : json)
        (w : World) (job_id : json) (snaps : list json) (snap : json)
        (r : Response) :
  let c := transcode_submission request_body in
  let q := status_query job_id transcode_url in
  let d := download_request transcoded_media_url in
  COPY_BUFSIZE <> 0 ->
  accepted (remote (sent w) c) job_id ->
  pending_from (S (sent w)) q snaps ->
  success_reply (remote (S (sent w) + length snaps) q) snap ->
  remote (S (S (sent w) + length snaps)) d = Some r ->
  http_error_msg r = None ->
  writable w output_path = true ->
  forall fuel, exists w',
    transcode (length snaps + S fuel) transcoded_media_url output_path
              request_body w = (Return tt, w') /\
    trace w' =
    trace w ++ start_events c "Transcoding your media file..." job_id
          ++ rounds q snaps ++ [Http q]
          ++ download_events transcoded_media_url output_path r /\
    method d = GET /\ stream d = true /\
    params d = [("url", JStr transcoded_media_url)] /\
    fs w' output_path = Some (raw r).
Proof.
  cbv zeta. intros N Acc P Sx R E W fuel.
  rewrite (transcode_accepted _ _ _ _ job_id _ Acc).
  rewrite (loop_success _ _ _ snaps snap) by (rewrite ?started_sent; assumption).
  unfold bind. rewrite download_media_spec. cbv zeta.
  cbn [sent after_request]. rewrite after_rounds_sent, started_sent.
  rewrite R, E.
  cbn [writable after_request].
  rewrite (proj2 (after_rounds_fs _ _ _)). cbn [writable started log after_request].
  rewrite W. unfold ret.
  eexists. split; [reflexivity|].
  split; [|repeat split].
  - cbn [trace store log].
    rewrite (after_request_trace (Http (download_request transcoded_media_url))).
    rewrite polled_trace. unfold download_events.
    repeat (progress (simpl; rewrite <- ?app_assoc)). reflexivity.
  - cbn [fs store]. rewrite String.eqb_refl. now rewrite copy_loop_spec.
Qed.

(** ** What a computation leaves of the world *)

Section Respects.

Variable R : World -> World -> Prop.
Hypothesis R_refl : forall w, R w w.
Hypothesis R_trans : forall w1 w2 w3, R w1 w2 -> R w2 w3 -> R w1 w3.

Lemma respects_ret {A} (a : A) : respects R (ret a).
Proof. intros w. apply R_refl. Qed.

Lemma respects_raise {A} (e : exn) : respects R (@raise A e).
Proof. intros w. apply R_refl. Qed.

Lemma respects_lift {A} (r : A + exn) : respects R (lift r).
Proof. destruct r; [apply respects_ret | apply respects_raise]. Qed.

Lemma respects_bind {A B} (m : M A) (k : A -> M B) :
  respects R m -> (forall a, respects R (k a)) -> respects R (bind m k).
Proof.
  intros Hm Hk w. unfold bind. specialize (Hm w).
  destruct (m w) as [[a|e|] w1]; simpl in Hm; simpl; auto.
  eapply R_trans; [exact Hm | apply Hk].
Qed.

Lemma respects_try_except {A} (body handler : M A) (catches : exn -> bool) :
  respects R body -> respects R handler ->
  respects R (try_except body catches handler).
Proof.
  intros Hb Hh w. unfold try_except. specialize (Hb w).
  destruct (body w) as [[a|e|] w1]; simpl in Hb; simpl; auto.
  destruct (catches e); simpl; auto.
  eapply R_trans; [exact Hb | apply Hh].
Qed.

Lemma respects_while_true {A} (body : M (option A)) :
  respects R body -> forall fuel, respects R (while_true fuel body).
Proof.
  intros Hb. induction fuel as [|fuel IH].
  - intros w. apply R_refl.
  - cbn [while_true]. apply respects_bind; [exact Hb|].
    intros [a|]; [apply respects_ret | exact IH].
Qed.

Lemma respects_raise_for_status (r : Response) : respects R (raise_for_status r).
Proof.
  unfold raise_for_status.
  destruct (http_error_msg r); [apply respects_raise | apply respects_ret].
Qed.

Lemma respects_response_json (r : Response) : respects R (response_json r).
Proof.
  unfold response_json.
  destruct (parsed r); [apply respects_ret | apply respects_raise].
Qed.

Lemma respects_open_rb (path : string) : respects R (open_rb path).
Proof. intros w. unfold open_rb. destruct (fs w path); apply R_refl. Qed.

(** Printing, sleeping and sending are respected when [R] does not look
    at the trace or at the number of requests. *)
Hypothesis R_log : forall w e, R w (log e w).
Hypothesis R_request : forall w e, R w (after_request e w).

Lemma respects_print (args : list pyarg) : respects R (print args).
Proof. intros w. apply R_log. Qed.

Lemma respects_sleep (seconds : Z) : respects R (sleep seconds).
Proof. intros w. apply R_log. Qed.

Lemma respects_send (q : Request) : respects R (send q).
Proof. intros w. unfold send. destruct (remote (sent w) q); apply R_request. Qed.

Lemma respects_check_job_status (job_id : json) (endpoint_url : string) :
  respects R (check_job_status job_id endpoint_url).
Proof.
  unfold check_job_status.
  apply respects_bind; [apply respects_send|]. intros r.
  apply respects_bind; [|intros _; apply respects_response_json].
  apply respects_try_except; [apply respects_raise_for_status | apply respects_raise].
Qed.

Lemma respects_prepare_media (file_path dolby_input_url : string) :
  respects R (prepare_media file_path dolby_input_url).
Proof.
  unfold prepare_media.
  apply respects_bind; [apply respects_send|]. intros r.
  apply respects_bind; [apply respects_raise_for_status|]. intros _.
  apply respects_bind; [apply respects_response_json|]. intros data.
  apply respects_bind; [apply respects_lift|]. intros presigned_url.
  apply respects_bind; [apply respects_print|]. intros _.
  apply respects_bind; [apply respects_open_rb|]. intros input_file.
  apply respects_bind; [|intros _; apply respects_ret].
  unfold requests_put.
  destruct (url_fault presigned_url); [apply respects_raise|].
  destruct presigned_url; try apply respects_raise.
  apply respects_send.
Qed.

Lemma respects_diagnose (fuel : nat) (dolby_input_url : string) :
  respects R (diagnose fuel dolby_input_url).
Proof.
  unfold diagnose.
  apply respects_bind; [apply respects_send|]. intros r.
  apply respects_bind; [apply respects_raise_for_status|]. intros _.
  apply respects_bind; [apply respects_response_json|]. intros data.
  apply respects_bind; [apply respects_lift|]. intros job_id.
  apply respects_bind; [apply respects_print|]. intros _.
  apply respects_bind; [apply respects_print|]. intros _.
  apply respects_while_true.
  apply respects_bind; [apply respects_check_job_status|]. intros job_response.
  apply respects_bind; [apply respects_lift|]. intros job_status.
  destruct (succeeded job_status).
  - repeat (apply respects_bind;
            [first [apply respects_lift | apply respects_print]|]; intros ?).
    apply respects_ret.
  - apply respects_bind; [apply respects_print|]. intros _.
    apply respects_bind; [apply respects_sleep|]. intros _.
    apply respects_ret.
Qed.

(** The two steps that write: they are respected when [R] lets the
    file at [output_path] change. *)
Variable output_path : string.
Hypothesis R_store : forall w content, R w (store output_path content w).

Lemma respects_download_media (transcoded_media_url : string) :
  respects R (download_media output_path transcoded_media_url).
Proof.
  unfold download_media.
  apply respects_bind; [apply respects_send|]. intros r.
  apply respects_bind; [apply respects_raise_for_status|]. intros _.
  apply respects_bind; [apply respects_print|]. intros _.
  apply respects_bind.
  - intros w. unfold open_wb.
    destruct (writable w output_path); [apply R_store | apply R_refl].
  - intros _ w. apply R_store.
Qed.

Lemma respects_transcode (fuel : nat) (transcoded_media_url : string)
      (request_body : json) :
  respects R (transcode fuel transcoded_media_url output_path request_body).
Proof.
  unfold transcode.
  apply respects_bind; [apply respects_send|]. intros r.
  apply respects_bind;
    [apply respects_try_except;
     [apply respects_raise_for_status | apply respects_raise]|].
  intros _.
  apply respects_bind; [apply respects_response_json|]. intros body.
  apply respects_bind; [apply respects_lift|]. intros job_id.
  apply respects_bind; [apply respects_print|]. intros _.
  apply respects_bind; [apply respects_print|]. intros _.
  apply respects_while_true.
  apply respects_bind; [apply respects_check_job_status|]. intros job_response.
  apply respects_bind; [apply respects_lift|]. intros job_status.
  destruct (succeeded job_status).
  - apply respects_bind; [apply respects_download_media|].
    intros _. apply respects_ret.
  - apply respects_bind; [apply respects_print|]. intros _.
    apply respects_bind; [apply respects_sleep|]. intros _.
    apply respects_ret.
Qed.

End Respects.

Lemma files_kept_refl (touched : list string) (w : World) : files_kept touched w w.
Proof. split; reflexivity. Qed.

Lemma files_kept_trans (touched : list string) (w1 w2 w3 : World) :
  files_kept touched w1 w2 -> files_kept touched w2 w3 -> files_kept touched w1 w3.
Proof.
  intros [F1 W1] [F2 W2]. split; intros p.
  - intros N. now rewrite F2, F1.
  - now rewrite W2, W1.
Qed.

Lemma files_kept_log (touched : list string) (w : World) (e : Event) :
  files_kept touched w (log e w).
Proof. split; reflexivity. Qed.

Lemma files_kept_request (touched : list string) (w : World) (e : Event) :
  files_kept touched w (after_request e w).
Proof. split; reflexivity. Qed.

Lemma files_kept_store (path : string) (content : bytes) (w : World) :
  files_kept [path] w (store path content w).
Proof.
  split; [|reflexivity]. intros p N. simpl.
  destruct (String.eqb_spec p path) as [->|_]; [|reflexivity].
  exfalso. apply N. now left.
Qed.

(** X1. The test of both loops, [job_status and job_status ==
    "Success"], holds for the string "Success" and for no other value:
    not for another spelling, and not for a status that is null, empty,
    a number, a list or a dict. *)
Theorem loop_test_is_exactly_success (job_status : json) :
  (succeeded job_status = true <-> job_status = JStr "Success") /\
  (truthy job_status = false -> succeeded job_status = false) /\
  (forall s, s <> "Success" -> succeeded (JStr s) = false).
Proof.
  split; [apply succeeded_true|]. split.
  - intros T. destruct (succeeded job_status) eqn:E; [|reflexivity].
    apply succeeded_true in E. subst. discriminate.
  - intros s N. destruct (succeeded (JStr s)) eqn:E; [|reflexivity].
    apply succeeded_true in E. congruence.
Qed.

(** X2. [download_media] and [transcode] change no file but the one at
    [output_path], and leave what can be opened for writing as it was,
    whatever the service answers and however the run ends. *)
Theorem only_the_destination_is_written
        (output_path transcoded_media_url : string) :
  respects (files_kept [output_path])
           (download_media output_path transcoded_media_url) /\
  (forall fuel request_body,
      respects (files_kept [output_path])
               (transcode fuel transcoded_media_url output_path request_body)).
Proof.
  split; [|intros fuel request_body].
  - apply respects_download_media;
      auto using files_kept_refl, files_kept_log, files_kept_request,
                 files_kept_store.
    apply files_kept_trans.
  - apply respects_transcode;
      auto using files_kept_refl, files_kept_log, files_kept_request,
                 files_kept_store.
    apply files_kept_trans.
Qed.

(** X3. [prepare_media], [check_job_status] and [diagnose] change no
    file at all, whatever the service answers and however the run
    ends. *)
Theorem readers_write_no_file :
  (forall file_path dolby_input_url,
      respects (files_kept []) (prepare_media file_path dolby_input_url)) /\
  (forall job_id endpoint_url,
      respects (files_kept []) (check_job_status job_id endpoint_url)) /\
  (forall fuel dolby_input_url,
      respects (files_kept []) (diagnose fuel dolby_input_url)).
Proof.
  split; [|split].
  - intros. apply respects_prepare_media;
      auto using files_kept_refl, files_kept_log, files_kept_request.
    apply files_kept_trans.
  - intros. apply respects_check_job_status;
      auto using files_kept_refl, files_kept_request.
    apply files_kept_trans.
  - intros. apply respects_diagnose;
      auto using files_kept_refl, files_kept_log, files_kept_request.
    apply files_kept_trans.
Qed.

(** ** The upload *)

Definition upload_notice (file_path : string) (presigned_url : json) : Event :=
  Print [Format "Uploading {0} to {1}" [JStr file_path; presigned_url]].

Lemma prepare_media_spec (file_path dolby_input_url : string) (w : World) :
  let c := input_registration dolby_input_url in
  prepare_media file_path dolby_input_url w =
  match remote (sent w) c with
  | None => (Raise ConnectionError, after_request (Http c) w)
  | Some r =>
      match http_error_msg r with
      | Some msg => (Raise (HTTPError msg r), after_request (Http c) w)
      | None =>
          match parsed r with
          | None => (Raise JSONDecodeError, after_request (Http c) w)
          | Some data =>
              match subscript data "url" with
              | inr e => (Raise e, after_request (Http c) w)
              | inl presigned_url =>
                  let w1 := log (upload_notice file_path presigned_url)
                                (after_request (Http c) w) in
                  match fs w file_path with
                  | None => (Raise (OSError file_path), w1)
                  | Some content =>
                      match url_fault presigned_url with
                      | Some e => (Raise e, w1)
                      | None =>
                          match presigned_url with
                          | JStr u =>
                              let put := presigned_upload u content in
                              match remote (S (sent w)) put with
                              | Some _ => (Return tt, after_request (Http put) w1)
                              | None =>
                                  (Raise ConnectionError, after_request (Http put) w1)
                              end
                          | _ => (Raise MissingSchema, w1)
                          end
                      end
                  end
              end
          end
      end
  end.
Proof.
  cbv zeta. unfold prepare_media, requests_post, send, bind at 1.
  fold (input_registration dolby_input_url).
  destruct (remote (sent w) (input_registration dolby_input_url)) as [r|];
    [|reflexivity].
  unfold raise_for_status, bind at 1.
  destruct (http_error_msg r) as [msg|]; [reflexivity|].
  unfold ret at 1, response_json, bind at 1.
  destruct (parsed r) as [data|]; [|reflexivity].
  unfold ret at 1, bind at 1, lift.
  destruct (subscript data "url") as [presigned_url|e]; [|reflexivity].
  unfold ret at 1, bind at 1, print at 1.
  fold (upload_notice file_path presigned_url).
  unfold bind at 1, open_rb. cbn [fs log after_request].
  destruct (fs w file_path) as [content|]; [|reflexivity].
  unfold bind, requests_put.
  destruct (url_fault presigned_url); [reflexivity|].
  destruct presigned_url; try reflexivity.
  unfold send. cbn [sent log after_request].
  fold (presigned_upload s content).
  destruct (remote (S (sent w)) (presigned_upload s content)); reflexivity.
Qed.

(** X5. When the registration is accepted and names a presigned URL
    that the library accepts, [prepare_media] sends one PUT, with that
    URL as its argument and the content of the local file as its body,
    and then returns normally whatever the status of the reply to the
    upload: that reply is never looked at.  When the library refuses
    the URL, its exception is raised after the file was opened and
    nothing is sent to it. *)
Theorem prepare_media_uploads_the_file
        (file_path dolby_input_url : string) (w : World)
        (r : Response) (data presigned_url : json) (content : bytes) :
  let c := input_registration dolby_input_url in
  remote (sent w) c = Some r ->
  http_error_msg r = None ->
  parsed r = Some data ->
  subscript data "url" = inl presigned_url ->
  fs w file_path = Some content ->
  (forall u r2,
      presigned_url = JStr u ->
      url_fault presigned_url = None ->
      remote (S (sent w)) (presigned_upload u content) = Some r2 ->
      exists w',
        prepare_media file_path dolby_input_url w = (Return tt, w') /\
        trace w' =
        trace w ++ [Http c; upload_notice file_path presigned_url;
                    Http (presigned_upload u content)] /\
        payload (presigned_upload u content) = DataPayload content /\
        url (presigned_upload u content) = u) /\
  (forall e,
      url_fault presigned_url = Some e ->
      exists w',
        prepare_media file_path dolby_input_url w = (Raise e, w') /\
        trace w' = trace w ++ [Http c; upload_notice file_path presigned_url]).
Proof.
  cbv zeta. intros R E P U F. split.
  - intros u r2 -> V R2.
    rewrite prepare_media_spec. cbv zeta. rewrite R, E, P, U, F, V, R2.
    eexists. split; [reflexivity|]. split; [|split; reflexivity].
    simpl. now rewrite <- !app_assoc.
  - intros e V.
    rewrite prepare_media_spec. cbv zeta. rewrite R, E, P, U, F, V.
    eexists. split; [reflexivity|].
    simpl. now rewrite <- !app_assoc.
Qed.

(** X6. [prepare_media] uploads nothing when the registration is
    answered with a status from 400 to 599 (the [HTTPError] of
    [raise_for_status] comes out as it is), when the reply has no "url",
    or when the local file cannot be read; the file is opened only
    after the registration and the notice, so a missing file shows
    after the service has been called. *)
Theorem prepare_media_failures
        (file_path dolby_input_url : string) (w : World) (r : Response) :
  let c := input_registration dolby_input_url in
  remote (sent w) c = Some r ->
  (forall msg, http_error_msg r = Some msg ->
               prepare_media file_path dolby_input_url w
               = (Raise (HTTPError msg r), after_request (Http c) w)) /\
  (forall data e,
      http_error_msg r = None -> parsed r = Some data ->
      subscript data "url" = inr e ->
      prepare_media file_path dolby_input_url w
      = (Raise e, after_request (Http c) w)) /\
  (forall data presigned_url,
      http_error_msg r = None -> parsed r = Some data ->
      subscript data "url" = inl presigned_url ->
      fs w file_path = None ->
      exists w',
        prepare_media file_path dolby_input_url w
        = (Raise (OSError file_path), w') /\
        trace w' = trace w ++ [Http c; upload_notice file_path presigned_url]).
Proof.
  cbv zeta. intros R. repeat split.
  - intros msg E. rewrite prepare_media_spec. cbv zeta. now rewrite R, E.
  - intros data e E P U. rewrite prepare_media_spec. cbv zeta.
    now rewrite R, E, P, U.
  - intros data presigned_url E P U F. rewrite prepare_media_spec. cbv zeta.
    rewrite R, E, P, U, F. eexists. split; [reflexivity|].
    simpl. now rewrite <- !app_assoc.
Qed.

(** ** Runs that do not return *)

Lemma download_media_not_running (output_path transcoded_media_url : string)
      (w : World) :
  fst (download_media output_path transcoded_media_url w) <> Running.
Proof.
  rewrite download_media_spec. cbv zeta.
  destruct (remote (sent w) (download_request transcoded_media_url)) as [r|];
    [|discriminate].
  destruct (http_error_msg r); [discriminate|].
  destruct (writable w output_path); discriminate.
Qed.

Lemma report_media_info_not_running (snap : json) (w : World) :
  fst (report_media_info snap w) <> Running.
Proof.
  rewrite report_media_info_spec.
  destruct (subscript snap "result") as [res|e]; [|discriminate].
  destruct (subscript res "media_info"); discriminate.
Qed.

(** The loop is still running only after as many pending rounds as it
    was given. *)
Lemma loop_running_inv {A} (job_id : json) (endpoint_url : string)
      (on_success : json -> M A) :
  (forall snap w, fst (on_success snap w) <> Running) ->
  forall (fuel : nat) (w w' : World),
    while_true fuel (poll_round job_id endpoint_url on_success) w = (Running, w') ->
    let q := status_query job_id endpoint_url in
    exists snaps,
      length snaps = fuel /\
      pending_from (sent w) q snaps /\
      w' = after_rounds q snaps w.
Proof.
  intros N. induction fuel as [|fuel IH]; intros w w' H; cbv zeta.
  - simpl in H. inversion H. subst. exists []. repeat split.
  - cbn [while_true] in H. unfold bind at 1 in H.
    rewrite poll_round_spec in H. cbv zeta in H.
    destruct (observe (remote (sent w) (status_query job_id endpoint_url)))
      as [snap|snap|e] eqn:O.
    + apply IH in H. cbv zeta in H. destruct H as (snaps & L & P & ->).
      exists (snap :: snaps). cbn [length pending_from]. repeat split.
      * now rewrite L.
      * now apply observe_pending.
      * exact P.
    + exfalso. unfold bind in H.
      pose proof (N snap (after_request
                            (Http (status_query job_id endpoint_url)) w)) as Nr.
      destruct (on_success snap _) as [[a|e|] w1]; try discriminate.
      now apply Nr.
    + discriminate.
Qed.

(** X7. If [transcode], or [diagnose], is still in its loop after
    [fuel] rounds, then the job was created and each of the [fuel]
    status queries was answered with a snapshot whose status is not
    "Success"; the run has sent [fuel] + 1 requests and has changed no
    file. *)
Theorem still_polling_means_all_pending (fuel : nat) (w w' : World) :
  (forall transcoded_media_url output_path request_body,
      transcode fuel transcoded_media_url output_path request_body w
      = (Running, w') ->
      exists job_id snaps,
        let c := transcode_submission request_body in
        let q := status_query job_id transcode_url in
        accepted (remote (sent w) c) job_id /\
        length snaps = fuel /\
        pending_from (S (sent w)) q snaps /\
        trace w' =
        trace w ++ start_events c "Transcoding your media file..." job_id
              ++ rounds q snaps /\
        sent w' = (sent w + 1 + fuel)%nat /\
        fs w' = fs w) /\
  (forall dolby_input_url,
      diagnose fuel dolby_input_url w = (Running, w') ->
      exists job_id snaps,
        let c := diagnose_submission dolby_input_url in
        let q := status_query job_id diagnose_url in
        accepted (remote (sent w) c) job_id /\
        length snaps = fuel /\
        pending_from (S (sent w)) q snaps /\
        trace w' =
        trace w ++ start_events c "Diagnosing your media file..." job_id
              ++ rounds q snaps /\
        sent w' = (sent w + 1 + fuel)%nat /\
        fs w' = fs w).
Proof.
  split.
  - intros tmu out body H.
    assert (exists job_id,
               accepted (remote (sent w) (transcode_submission body)) job_id)
      as [job_id Acc].
    { revert H. rewrite transcode_spec. cbv zeta. unfold accepted.
      destruct (remote (sent w) (transcode_submission body)) as [r|]; [|discriminate].
      destruct (http_error_msg r) eqn:E; [discriminate|].
      destruct (parsed r) as [b|] eqn:P; [|discriminate].
      destruct (subscript b "job_id") as [j|e] eqn:J; [|discriminate].
      intros _. exists j, r, b. auto. }
    rewrite (transcode_accepted _ _ _ _ job_id _ Acc) in H.
    apply loop_running_inv in H;
      [|intros snap w0; apply download_media_not_running].
    cbv zeta in H. destruct H as (snaps & L & P & ->).
    exists job_id, snaps. cbv zeta. rewrite started_sent in P.
    repeat split; auto.
    + rewrite after_rounds_trace, started_trace. now rewrite <- app_assoc.
    + rewrite after_rounds_sent, started_sent. lia.
    + now rewrite (proj1 (after_rounds_fs _ _ _)).
  - intros input H.
    assert (exists job_id,
               accepted (remote (sent w) (diagnose_submission input)) job_id)
      as [job_id Acc].
    { revert H. rewrite diagnose_spec. cbv zeta. unfold accepted.
      destruct (remote (sent w) (diagnose_submission input)) as [r|]; [|discriminate].
      destruct (http_error_msg r) eqn:E; [discriminate|].
      destruct (parsed r) as [b|] eqn:P; [|discriminate].
      destruct (subscript b "job_id") as [j|e] eqn:J; [|discriminate].
      intros _. exists j, r, b. auto. }
    rewrite (diagnose_accepted _ _ job_id _ Acc) in H.
    apply loop_running_inv in H;
      [|intros snap w0; apply report_media_info_not_running].
    cbv zeta in H. destruct H as (snaps & L & P & ->).
    exists job_id, snaps. cbv zeta. rewrite started_sent in P.
    repeat split; auto.
    + rewrite after_rounds_trace, started_trace. now rewrite <- app_assoc.
    + rewrite after_rounds_sent, started_sent. lia.
    + now rewrite (proj1 (after_rounds_fs _ _ _)).
Qed.

(** X8. When the job of [transcode] has succeeded but the download
    is refused, the error is not turned into [Exception] with the body
    as the errors of the submission and of the polls are: a status from
    400 to 599 leaves [transcode] as the [HTTPError] of
    [raise_for_status], and a destination that cannot be opened as
    [OSError], raised after the download request was sent.  In both
    cases nothing is retried and no file has changed. *)
Theorem refused_download_after_success
        (transcoded_media_url output_path : string) (request_body : json)
        (w : World) (job_id : json) (snaps : list json) (snap : json)
        (r : Response) (fuel : nat) :
  let c := transcode_submission request_body in
  let q := status_query job_id transcode_url in
  let d := download_request transcoded_media_url in
  accepted (remote (sent w) c) job_id ->
  pending_from (S (sent w)) q snaps ->
  success_reply (remote (S (sent w) + length snaps) q) snap ->
  remote (S (S (sent w) + length snaps)) d = Some r ->
  (forall msg,
      http_error_msg r = Some msg ->
      exists w',
        transcode (length snaps + S fuel) transcoded_media_url output_path
                  request_body w = (Raise (HTTPError msg r), w') /\
        trace w' =
        trace w ++ start_events c "Transcoding your media file..." job_id
              ++ rounds q snaps ++ [Http q; Http d] /\
        fs w' = fs w) /\
  (http_error_msg r = None ->
   writable w output_path = false ->
   exists w',
     transcode (length snaps + S fuel) transcoded_media_url output_path
               request_body w = (Raise (OSError output_path), w') /\
     trace w' =
     trace w ++ start_events c "Transcoding your media file..." job_id
           ++ rounds q snaps ++ [Http q]
           ++ download_events transcoded_media_url output_path r /\
     fs w' = fs w).
Proof.
  cbv zeta. intros Acc P Sx R.
  assert (transcode (length snaps + S fuel) transcoded_media_url output_path
                    request_body w =
          (a <- download_media output_path transcoded_media_url ;; ret a)
            (after_request (Http (status_query job_id transcode_url))
               (after_rounds (status_query job_id transcode_url) snaps
                  (started (transcode_submission request_body)
                           "Transcoding your media file..." job_id w)))) as T.
  { rewrite (transcode_accepted _ _ _ _ job_id _ Acc).
    now rewrite (loop_success _ _ _ snaps snap)
      by (rewrite ?started_sent; assumption). }
  rewrite T. unfold bind. rewrite download_media_spec. cbv zeta.
  cbn [sent after_request]. rewrite after_rounds_sent, started_sent, R.
  cbn [writable after_request].
  rewrite (proj2 (after_rounds_fs _ _ _)). cbn [writable started log after_request].
  split.
  - intros msg E. rewrite E. eexists. split; [reflexivity|]. split.
    + rewrite (after_request_trace (Http (download_request transcoded_media_url))).
      rewrite polled_trace.
      repeat (progress (simpl; rewrite <- ?app_assoc)). reflexivity.
    + cbn [fs after_request]. now rewrite (proj1 (after_rounds_fs _ _ _)).
  - intros E W. rewrite E, W. eexists. split; [reflexivity|]. split.
    + cbn [trace log].
      rewrite (after_request_trace (Http (download_request transcoded_media_url))).
      rewrite polled_trace. unfold download_events.
      repeat (progress (simpl; rewrite <- ?app_assoc)). reflexivity.
    + cbn [fs log after_request]. now rewrite (proj1 (after_rounds_fs _ _ _)).
Qed.

(** X9. When the snapshot that shows "Success" to [diagnose] has no
    "result", or a result without "media_info", the subscript raises and
    the error leaves [diagnose] right after that status query: nothing
    is printed and nothing is returned. *)
Theorem success_without_media_info
        (dolby_input_url : string) (w : World)
        (job_id : json) (snaps : list json) (snap : json) (e : exn) (fuel : nat) :
  let c := diagnose_submission dolby_input_url in
  let q := status_query job_id diagnose_url in
  accepted (remote (sent w) c) job_id ->
  pending_from (S (sent w)) q snaps ->
  success_reply (remote (S (sent w) + length snaps) q) snap ->
  (subscript snap "result" = inr e \/
   exists result, subscript snap "result" = inl result /\
                  subscript result "media_info" = inr e) ->
  exists w',
    diagnose (length snaps + S fuel) dolby_input_url w = (Raise e, w') /\
    trace w' =
    trace w ++ start_events c "Diagnosing your media file..." job_id
          ++ rounds q snaps ++ [Http q].
Proof.
  cbv zeta. intros Acc P Sx Miss.
  rewrite (diagnose_accepted _ _ job_id _ Acc).
  rewrite (loop_success _ _ _ snaps snap) by (rewrite ?started_sent; assumption).
  unfold bind. rewrite report_media_info_spec.
  destruct Miss as [Rs | (result & Rs & Mi)]; rewrite Rs; [|rewrite Mi];
    (eexists; split; [reflexivity | apply polled_trace]).
Qed.

(** X10. A status query that gets no reply at all, or a reply whose
    body cannot be decoded as JSON, ends the loop of [transcode] and of
    [diagnose] at once: the [except] clause of [check_job_status] takes
    [HTTPError] only, so the fault comes out as it is, with no further
    poll or sleep. *)
Theorem broken_status_reply_aborts
        (w : World) (job_id : json) (snaps : list json) (fuel : nat) :
  (forall transcoded_media_url output_path request_body,
      let c := transcode_submission request_body in
      let q := status_query job_id transcode_url in
      accepted (remote (sent w) c) job_id ->
      pending_from (S (sent w)) q snaps ->
      forall e,
        (remote (S (sent w) + length snaps) q = None /\ e = ConnectionError) \/
        (exists r, remote (S (sent w) + length snaps) q = Some r /\
                   http_error_msg r = None /\ parsed r = None /\
                   e = JSONDecodeError) ->
        exists w',
          transcode (length snaps + S fuel) transcoded_media_url output_path
                    request_body w = (Raise e, w') /\
          trace w' =
          trace w ++ start_events c "Transcoding your media file..." job_id
                ++ rounds q snaps ++ [Http q]) /\
  (forall dolby_input_url,
      let c := diagnose_submission dolby_input_url in
      let q := status_query job_id diagnose_url in
      accepted (remote (sent w) c) job_id ->
      pending_from (S (sent w)) q snaps ->
      forall e,
        (remote (S (sent w) + length snaps) q = None /\ e = ConnectionError) \/
        (exists r, remote (S (sent w) + length snaps) q = Some r /\
                   http_error_msg r = None /\ parsed r = None /\
                   e = JSONDecodeError) ->
        exists w',
          diagnose (length snaps + S fuel) dolby_input_url w = (Raise e, w') /\
          trace w' =
          trace w ++ start_events c "Diagnosing your media file..." job_id
                ++ rounds q snaps ++ [Http q]).
Proof.
  split.
  - intros tmu out body c q Acc P e Why. subst c q.
    rewrite (transcode_accepted _ _ _ _ job_id _ Acc).
    rewrite (loop_failure _ _ _ snaps e).
    + eexists. split; [reflexivity | apply polled_trace].
    + now rewrite started_sent.
    + rewrite started_sent. unfold observe.
      destruct Why as [[R ->] | (r & R & E & Pa & ->)];
        [now rewrite R | now rewrite R, E, Pa].
  - intros input c q Acc P e Why. subst c q.
    rewrite (diagnose_accepted _ _ job_id _ Acc).
    rewrite (loop_failure _ _ _ snaps e).
    + eexists. split; [reflexivity | apply polled_trace].
    + now rewrite started_sent.
    + rewrite started_sent. unfold observe.
      destruct Why as [[R ->] | (r & R & E & Pa & ->)];
        [now rewrite R | now rewrite R, E, Pa].
Qed.

End MediaAPI.

(** ** Concrete runs *)

Ltac show_reply :=
  repeat first [ split | reflexivity | discriminate | eexists ].

(** A job that reports "Failed" is polled like any other: after three
    rounds [transcode] is still in its loop. *)
Lemma polling_stops_only_on_success_witness :
  let c := transcode_submission "secret" (JObj []) in
  let q := status_query "secret" (JStr "job-1") transcode_url in
  exists w',
    transcode "secret" 65536 service_failed 3
              "dlb://out/output.mp4" "videos/output.mp4" (JObj []) fresh
    = (Running, w') /\
    trace w' =
    trace fresh ++ start_events c "Transcoding your media file..." (JStr "job-1")
          ++ rounds q (map snapshots_failed (seq 0 3)).
Proof.
  apply (proj1 (proj2 (polling_stops_only_on_success
                         "secret" 65536 service_failed
                         "dlb://out/output.mp4" "videos/output.mp4" (JObj [])
                         "dlb://in/input.mp4" fresh))).
  - show_reply.
  - intros [|[|i]]; show_reply.
Defined.

Lemma error_status_raises_body_witness :
  check_job_status "secret" service_rejecting (JStr "job-1") transcode_url fresh
  = (Raise (Exception (field_text "error" "invalid url")),
     after_request (Http (status_query "secret" (JStr "job-1") transcode_url)) fresh) /\
  transcode "secret" 65536 service_rejecting 5
            "dlb://out/output.mp4" "videos/output.mp4" (JObj []) fresh
  = (Raise (Exception (field_text "error" "invalid url")),
     after_request (Http (transcode_submission "secret" (JObj []))) fresh).
Proof.
  destruct (error_status_raises_body "secret" 65536 service_rejecting
                                     reply_invalid_url eq_refl) as (A & B & _).
  split; [apply A | apply B]; reflexivity.
Defined.

(** C2 as stated fails: a status query answered with 300, which is not
    a 2xx status, raises nothing; the snapshot in its body is returned. *)
Lemma non_2xx_status_reply_is_returned :
  is_2xx reply_redirect = false /\
  check_job_status "secret" service_redirect (JStr "job-1") transcode_url fresh
  = (Return (JObj [("status", JStr "Running")]),
     after_request (Http (status_query "secret" (JStr "job-1") transcode_url)) fresh).
Proof. split; reflexivity. Qed.

Lemma diagnose_returns_media_info_witness :
  let c := diagnose_submission "secret" "dlb://in/input.mp4" in
  let q := status_query "secret" (JStr "job-1") diagnose_url in
  exists w',
    diagnose "secret" service_diagnose 3 "dlb://in/input.mp4" fresh
    = (Return sample_media_info, w') /\
    trace w' =
    trace fresh ++ start_events c "Diagnosing your media file..." (JStr "job-1")
          ++ rounds q [JObj [("status", JStr "Running")];
                       JObj [("status", JStr "Running")]]
          ++ [Http q; Print [Str (newline ++ "Media Info: ")%string;
                             Obj sample_media_info]].
Proof.
  apply (diagnose_returns_media_info
           "secret" service_diagnose "dlb://in/input.mp4" fresh (JStr "job-1")
           [JObj [("status", JStr "Running")]; JObj [("status", JStr "Running")]]
           (JObj [("status", JStr "Success");
                  ("result", JObj [("media_info", sample_media_info)])])
           (JObj [("media_info", sample_media_info)])
           sample_media_info);
    show_reply.
Defined.

Lemma transcode_downloads_to_destination_witness :
  let c := transcode_submission "secret" (JObj []) in
  let q := status_query "secret" (JStr "job-1") transcode_url in
  let d := download_request "secret" "dlb://out/output.mp4" in
  exists w',
    transcode "secret" 3 service_transcode 3
              "dlb://out/output.mp4" "videos/output.mp4" (JObj []) fresh
    = (Return tt, w') /\
    trace w' =
    trace fresh ++ start_events c "Transcoding your media file..." (JStr "job-1")
          ++ rounds q [JObj [("status", JStr "Running")];
                       JObj [("status", JStr "Running")]]
          ++ [Http q]
          ++ download_events "secret" "dlb://out/output.mp4" "videos/output.mp4"
                             reply_media /\
    method d = GET /\ stream d = true /\
    params d = [("url", JStr "dlb://out/output.mp4")] /\
    fs w' "videos/output.mp4" = Some sample_media.
Proof.
  apply (transcode_downloads_to_destination
           "secret" 3 service_transcode
           "dlb://out/output.mp4" "videos/output.mp4" (JObj []) fresh (JStr "job-1")
           [JObj [("status", JStr "Running")]; JObj [("status", JStr "Running")]]
           snapshot_done reply_media);
    show_reply.
Defined.

(** C3 as stated fails: the snapshot that ends the polling names
    https://cdn.example/result.mp4, and the run asks the output endpoint
    for the caller's dlb://out/output.mp4 all the same. *)
Lemma download_url_is_the_callers :
  let q := status_query "secret" (JStr "job-1") transcode_url in
  let d := download_request "secret" "dlb://out/output.mp4" in
  let run := transcode "secret" 3 service_transcode 3
                       "dlb://out/output.mp4" "videos/output.mp4" (JObj []) fresh in
  service_transcode 3 q = Some reply_done /\
  parsed reply_done = Some snapshot_done /\
  fst run = Return tt /\
  requests (trace (snd run)) = [transcode_submission "secret" (JObj []); q; q; q; d] /\
  url d = "https://api.dolby.com/media/output" /\
  params d = [("url", JStr "dlb://out/output.mp4")] /\
  params d <> [("url", JStr "https://cdn.example/result.mp4")].
Proof. cbv zeta. repeat split; try reflexivity. discriminate. Qed.

Lemma job_id_is_extracted_and_polled_witness :
  let c := transcode_submission "secret" (JObj []) in
  let q := status_query "secret" (JStr "job-1") transcode_url in
  params q = [("job_id", JStr "job-1")] /\
  exists evs,
    trace (snd (transcode "secret" 65536 service_running 3
                          "dlb://out/output.mp4" "videos/output.mp4" (JObj []) fresh)) =
    trace fresh ++ start_events c "Transcoding your media file..." (JStr "job-1")
          ++ rounds q [JObj [("status", JStr "Running")];
                       JObj [("status", JStr "Running")]]
          ++ Http q :: evs /\
    Forall (polls_job "secret" (JStr "job-1") transcode_url
                      [download_request "secret" "dlb://out/output.mp4"]) evs.
Proof.
  split; [reflexivity|].
  apply (proj1 (job_id_is_extracted_and_polled
                  "secret" 65536 service_running reply_job
                  (JObj [("job_id", JStr "job-1")]) (JStr "job-1") fresh
                  eq_refl eq_refl eq_refl)
               [JObj [("status", JStr "Running")];
                JObj [("status", JStr "Running")]] 0%nat);
    show_reply.
Defined.

Lemma error_status_aborts_polling_witness :
  let c := transcode_submission "secret" (JObj []) in
  let q := status_query "secret" (JStr "job-1") transcode_url in
  exists w',
    transcode "secret" 65536 service_breaking 7
              "dlb://out/output.mp4" "videos/output.mp4" (JObj []) fresh
    = (Raise (Exception (field_text "error" "invalid url")), w') /\
    trace w' =
    trace fresh ++ start_events c "Transcoding your media file..." (JStr "job-1")
          ++ rounds q [JObj [("status", JStr "Running")]] ++ [Http q].
Proof.
  apply (proj1 (error_status_aborts_polling
                  "secret" 65536 service_breaking (JStr "job-1")
                  [JObj [("status", JStr "Running")]] reply_invalid_url fresh
                  eq_refl)
               "dlb://out/output.mp4" "videos/output.mp4" (JObj []) 5%nat);
    show_reply.
Defined.

(** C5 as stated fails: the first status query is answered with 300,
    which is not a 2xx status; the loop logs the snapshot, sleeps and
    polls again. *)
Lemma non_2xx_poll_is_retried :
  let c := transcode_submission "secret" (JObj []) in
  let q := status_query "secret" (JStr "job-1") transcode_url in
  let run := transcode "secret" 65536 service_redirecting 2
                       "dlb://out/output.mp4" "videos/output.mp4" (JObj []) fresh in
  service_redirecting 1 q = Some reply_redirect /\
  is_2xx reply_redirect = false /\
  fst run = Running /\
  trace (snd run) =
  start_events c "Transcoding your media file..." (JStr "job-1")
  ++ [Http q; Print [Obj (JObj [("status", JStr "Running")])]; Sleep 10;
      Http q; Print [Obj (JObj [("status", JStr "Running")])]; Sleep 10].
Proof. cbv zeta. repeat split; reflexivity. Qed.

Lemma download_writes_body_witness :
  exists w',
    download_media "secret" 3 service_media
                   "videos/output.mp4" "dlb://out/output.mp4" fresh
    = (Return tt, w') /\
    fs w' "videos/output.mp4" = Some sample_media.
Proof.
  apply (proj1 (download_writes_body
                  "secret" 3 service_media
                  "videos/output.mp4" "dlb://out/output.mp4" fresh
                  ltac:(discriminate))
               reply_media);
    reflexivity.
Defined.

(** C9 as stated fails: the upload of [prepare_media] to the presigned
    URL is sent without the [x-api-key] header, and without the two
    others. *)
Lemma presigned_upload_has_no_api_key :
  let run := prepare_media "secret" service_upload sample_url_fault
                           "videos/input.mp4" "dlb://in/input.mp4" fresh in
  let put := presigned_upload "https://upload.example/presigned" sample_media in
  fst run = Return tt /\
  requests (trace (snd run)) = [input_registration "secret" "dlb://in/input.mp4"; put] /\
  headers put = [] /\
  ~ In ("x-api-key", "secret") (headers put).
Proof. cbv zeta. repeat split; try reflexivity. intros []. Qed.

Lemma missing_key_aborts_witness :
  let c := transcode_submission "secret" (JObj []) in
  let q := status_query "secret" (JStr "job-1") transcode_url in
  (transcode "secret" 65536 service_no_job_id 4
             "dlb://out/output.mp4" "videos/output.mp4" (JObj []) fresh
   = (Raise (KeyError "job_id"), after_request (Http c) fresh)) /\
  (exists w',
      transcode "secret" 65536 service_no_status 4
                "dlb://out/output.mp4" "videos/output.mp4" (JObj []) fresh
      = (Raise (KeyError "status"), w') /\
      trace w' =
      trace fresh ++ start_events c "Transcoding your media file..." (JStr "job-1")
            ++ rounds q [JObj [("status", JStr "Running")]] ++ [Http q]).
Proof.
  split.
  - apply (proj1 (proj1 (missing_key_aborts
                           "secret" 65536 service_no_job_id reply_no_job_id
                           (JObj [("id", JStr "job-1")]) (KeyError "job_id") fresh
                           eq_refl eq_refl)
                        eq_refl)).
    reflexivity.
  - apply (proj1 (proj1 (proj2 (missing_key_aborts
                                  "secret" 65536 service_no_status reply_no_status
                                  (JObj [("state", JStr "Running")])
                                  (KeyError "status") fresh eq_refl eq_refl))
                        eq_refl (JStr "job-1")
                        [JObj [("status", JStr "Running")]] 2%nat));
      show_reply.
Defined.

Lemma prepare_media_uploads_the_file_witness :
  let c := input_registration "secret" "dlb://in/input.mp4" in
  let put := presigned_upload "https://upload.example/presigned" sample_media in
  (exists w',
      prepare_media "secret" service_upload_refused sample_url_fault
                    "videos/input.mp4" "dlb://in/input.mp4" fresh
      = (Return tt, w') /\
      trace w' =
      trace fresh
            ++ [Http c;
                upload_notice "videos/input.mp4"
                              (JStr "https://upload.example/presigned");
                Http put] /\
      payload put = DataPayload sample_media /\
      url put = "https://upload.example/presigned") /\
  (exists w',
      prepare_media "secret" service_upload_bare sample_url_fault
                    "videos/input.mp4" "dlb://in/input.mp4" fresh
      = (Raise MissingSchema, w') /\
      trace w' =
      trace fresh
            ++ [Http c;
                upload_notice "videos/input.mp4" (JStr "upload.example/presigned")]).
Proof.
  split.
  - apply (proj1 (prepare_media_uploads_the_file
                    "secret" service_upload_refused sample_url_fault
                    "videos/input.mp4" "dlb://in/input.mp4" fresh
                    reply_presigned
                    (JObj [("url", JStr "https://upload.example/presigned")])
                    (JStr "https://upload.example/presigned") sample_media
                    eq_refl eq_refl eq_refl eq_refl eq_refl)
                 "https://upload.example/presigned" reply_invalid_url);
      reflexivity.
  - apply (proj2 (prepare_media_uploads_the_file
                    "secret" service_upload_bare sample_url_fault
                    "videos/input.mp4" "dlb://in/input.mp4" fresh
                    reply_presigned_bare
                    (JObj [("url", JStr "upload.example/presigned")])
                    (JStr "upload.example/presigned") sample_media
                    eq_refl eq_refl eq_refl eq_refl eq_refl));
      reflexivity.
Defined.

Lemma prepare_media_failures_witness :
  let c := input_registration "secret" "dlb://in/input.mp4" in
  exists w',
    prepare_media "secret" service_upload sample_url_fault
                  "videos/none.mp4" "dlb://in/input.mp4" fresh
    = (Raise (OSError "videos/none.mp4"), w') /\
    trace w' =
    trace fresh
          ++ [Http c;
              upload_notice "videos/none.mp4"
                            (JStr "https://upload.example/presigned")].
Proof.
  apply (proj2 (proj2 (prepare_media_failures
                         "secret" service_upload sample_url_fault
                         "videos/none.mp4" "dlb://in/input.mp4" fresh
                         reply_presigned eq_refl))
               (JObj [("url", JStr "https://upload.example/presigned")])
               (JStr "https://upload.example/presigned"));
    reflexivity.
Defined.

Lemma still_polling_means_all_pending_witness :
  let run := transcode "secret" 65536 service_running 2
                       "dlb://out/output.mp4" "videos/output.mp4" (JObj []) fresh in
  exists job_id snaps,
    let c := transcode_submission "secret" (JObj []) in
    let q := status_query "secret" job_id transcode_url in
    accepted (service_running (sent fresh) c) job_id /\
    length snaps = 2%nat /\
    pending_from service_running (S (sent fresh)) q snaps /\
    trace (snd run) =
    trace fresh ++ start_events c "Transcoding your media file..." job_id
          ++ rounds q snaps /\
    sent (snd run) = (sent fresh + 1 + 2)%nat /\
    fs (snd run) = fs fresh.
Proof.
  apply (proj1 (still_polling_means_all_pending
                  "secret" 65536 service_running 2 fresh
                  (snd (transcode "secret" 65536 service_running 2
                                  "dlb://out/output.mp4" "videos/output.mp4"
                                  (JObj []) fresh)))
               "dlb://out/output.mp4" "videos/output.mp4" (JObj [])).
  reflexivity.
Defined.

Lemma refused_download_after_success_witness :
  let c := transcode_submission "secret" (JObj []) in
  let q := status_query "secret" (JStr "job-1") transcode_url in
  let d := download_request "secret" "dlb://out/output.mp4" in
  let msg :=
    "422 Client Error: Unprocessable Entity for url: https://api.dolby.com/media/diagnose" in
  exists w',
    transcode "secret" 65536 service_download_refused 5
              "dlb://out/output.mp4" "videos/output.mp4" (JObj []) fresh
    = (Raise (HTTPError msg reply_invalid_url), w') /\
    trace w' =
    trace fresh ++ start_events c "Transcoding your media file..." (JStr "job-1")
          ++ rounds q [JObj [("status", JStr "Running")]] ++ [Http q; Http d] /\
    fs w' = fs fresh.
Proof.
  apply (proj1 (refused_download_after_success
                  "secret" 65536 service_download_refused
                  "dlb://out/output.mp4" "videos/output.mp4" (JObj []) fresh
                  (JStr "job-1") [JObj [("status", JStr "Running")]]
                  snapshot_done reply_invalid_url 3
                  ltac:(show_reply) ltac:(show_reply) ltac:(show_reply) eq_refl));
    reflexivity.
Defined.

Lemma success_without_media_info_witness :
  let c := diagnose_submission "secret" "dlb://in/input.mp4" in
  let q := status_query "secret" (JStr "job-1") diagnose_url in
  exists w',
    diagnose "secret" service_no_media_info 4 "dlb://in/input.mp4" fresh
    = (Raise (KeyError "media_info"), w') /\
    trace w' =
    trace fresh ++ start_events c "Diagnosing your media file..." (JStr "job-1")
          ++ rounds q [JObj [("status", JStr "Running")]] ++ [Http q].
Proof.
  apply (success_without_media_info
           "secret" service_no_media_info "dlb://in/input.mp4" fresh
           (JStr "job-1") [JObj [("status", JStr "Running")]]
           snapshot_done (KeyError "media_info") 2);
    try solve [show_reply].
  right. exists (JObj [("url", JStr "https://cdn.example/result.mp4")]).
  split; reflexivity.
Defined.

Lemma broken_status_reply_aborts_witness :
  let c := diagnose_submission "secret" "dlb://in/input.mp4" in
  let q := status_query "secret" (JStr "job-1") diagnose_url in
  exists w',
    diagnose "secret" service_dropping 4 "dlb://in/input.mp4" fresh
    = (Raise ConnectionError, w') /\
    trace w' =
    trace fresh ++ start_events c "Diagnosing your media file..." (JStr "job-1")
          ++ rounds q [JObj [("status", JStr "Running")]] ++ [Http q].
Proof.
  apply (proj2 (broken_status_reply_aborts
                  "secret" 65536 service_dropping fresh (JStr "job-1")
                  [JObj [("status", JStr "Running")]] 2)
               "dlb://in/input.mp4");
    try solve [show_reply].
  left. split; reflexivity.
Defined.

Lemma rejected_submission_creates_no_job_witness :
  let c := diagnose_submission "secret" "dlb://in/input.mp4" in
  exists e w',
    diagnose "secret" service_rejecting 5 "dlb://in/input.mp4" fresh
    = (Raise e, w') /\
    (exists msg, http_error_msg reply_invalid_url = Some msg /\
                 e = HTTPError msg reply_invalid_url) /\
    error_text e = Some (field_text "error" "invalid url") /\
    trace w' = trace fresh ++ [Http c] /\ sent w' = S (sent fresh).
Proof.
  apply (proj2 (rejected_submission_creates_no_job
                  "secret" 65536 service_rejecting reply_invalid_url fresh
                  eq_refl)
               5%nat "dlb://in/input.mp4").
  reflexivity.
Defined.

(** C6 as stated fails: the submission is answered with 300, which is
    not a 2xx status; no error is raised, the job identifier of the
    body is read and printed, and the status is polled and slept on. *)
Lemma redirected_submission_creates_a_job :
  let c := transcode_submission "secret" (JObj []) in
  let q := status_query "secret" (JStr "job-1") transcode_url in
  let run := transcode "secret" 65536 service_redirected_submission 1
                       "dlb://out/output.mp4" "videos/output.mp4" (JObj []) fresh in
  service_redirected_submission 0 c = Some reply_redirect_job /\
  is_2xx reply_redirect_job = false /\
  fst run = Running /\
  trace (snd run) =
  start_events c "Transcoding your media file..." (JStr "job-1")
  ++ [Http q; Print [Obj (JObj [("status", JStr "Running")])]; Sleep 10].
Proof. cbv zeta. repeat split; reflexivity. Qed.
